(** * SkyPortal GCN widgets: a shallow embedding of the UI state logic

  The development follows three React components of the repository:

  - [GcnSelectionForm] (selection defaults, sky-map overlay fetch, query
    form validation, result panes, Treasure Map buttons),
  - [SkymapTriggerAPIDisplay] (the API trigger selector),
  - [RecentGcnEvents] (the recent-events widget).

  React state is modelled by explicit records, handlers and effects by
  functions on these records, JavaScript objects used as lookup tables by
  finite maps, and rendering by functions into a small element tree. *)

From Stdlib Require Import ZArith QArith Ascii String List Lia.
From stdpp Require Import gmap strings list.
Import ListNotations.

Local Open Scope string_scope.
Local Open Scope list_scope.
Local Open Scope Z_scope.

(** ** The fragment of JavaScript the components rely on *)

Module JS.

(** Numbers: the finite values are represented by their exact rational
    value; [NaN] and the two infinities are kept apart because the
    relational operators treat them specially. *)
Inductive number : Type :=
| NaN
| NegInf
| Fin (q : Q)
| PosInf.

Inductive prim : Type :=
| PUndefined
| PNull
| PBool (b : bool)
| PNum (n : number)
| PStr (s : string).

(** Form data holds primitives and arrays of primitives ([queryList],
    [group_ids]). *)
Inductive value : Type :=
| VPrim (p : prim)
| VArr (items : list prim).

Coercion VPrim : prim >-> value.

Definition num (z : Z) : prim := PNum (Fin (inject_Z z)).

(** [x?.f]-style access needs to tell an absent object from a present
    one; [nullable] is used wherever the code guards with [?.] or tests
    truthiness of an object or array reference. *)
Inductive nullable (A : Type) : Type :=
| Undefined
| Null
| Def (a : A).
Arguments Undefined {A}.
Arguments Null {A}.
Arguments Def {A} a.

(** [o?.f] *)
Definition opt_chain {A B} (o : nullable A) (f : A -> nullable B) : nullable B :=
  match o with
  | Def a => f a
  | _ => Undefined
  end.

(** Truthiness of an object or array reference: only absence is falsy. *)
Definition present {A} (o : nullable A) : bool :=
  match o with
  | Def _ => true
  | _ => false
  end.

Definition Qlt_bool (a b : Q) : bool := negb (Qle_bool b a).

(** Number::lessThan; [None] is the "undefined" answer given for NaN. *)
Definition num_lessThan (x y : number) : option bool :=
  match x, y with
  | NaN, _ | _, NaN => None
  | PosInf, _ => Some false
  | _, PosInf => Some true
  | _, NegInf => Some false
  | NegInf, _ => Some true
  | Fin a, Fin b => Some (Qlt_bool a b)
  end.

(** ToBoolean on primitives. *)
Definition truthy (x : prim) : bool :=
  match x with
  | PUndefined | PNull => false
  | PBool b => b
  | PNum NaN => false
  | PNum (Fin q) => negb (Qeq_bool q 0)
  | PNum _ => true
  | PStr s => negb (String.eqb s "")
  end.

(** [a || b] *)
Definition or_else (a b : prim) : prim := if truthy a then a else b.

Section Coercions.

(** Two built-ins of the language are left abstract: the numeric reading
    of a string and the string form of an array. Every statement below
    holds whatever they compute. *)
Variable StringToNumber : string -> number.
Variable ArrayToString : list prim -> string.

Definition ToPrimitive (v : value) : prim :=
  match v with
  | VPrim p => p
  | VArr items => PStr (ArrayToString items)
  end.

Definition ToNumber (p : prim) : number :=
  match p with
  | PUndefined => NaN
  | PNull => Fin 0
  | PBool true => Fin 1
  | PBool false => Fin 0
  | PNum n => n
  | PStr s => StringToNumber s
  end.

(** The abstract relational comparison [x < y]. *)
Definition lessThan (x y : value) : option bool :=
  match ToPrimitive x, ToPrimitive y with
  | PStr a, PStr b => Some (String.ltb a b)
  | px, py => num_lessThan (ToNumber px) (ToNumber py)
  end.

(** [x < y] and [x > y] as operators: an undefined comparison is false. *)
Definition lt (x y : value) : bool := default false (lessThan x y).
Definition gt (x y : value) : bool := default false (lessThan y x).

End Coercions.

(** Property read on an object used as a record: a missing key reads as
    [undefined]. *)
Definition get (o : gmap string value) (k : string) : value :=
  default (VPrim PUndefined) (o !! k).

(** Abrupt completion: the only exception the modelled code can raise is
    the TypeError of a property access on [undefined]. *)
Inductive completion (A : Type) : Type :=
| Normal (a : A)
| Throw_TypeError.
Arguments Normal {A} a.
Arguments Throw_TypeError {A}.

Definition bind {A B} (c : completion A) (k : A -> completion B) : completion B :=
  match c with
  | Normal a => k a
  | Throw_TypeError => Throw_TypeError
  end.

(** A selection held in component state: [useState(null)] initially, then
    either [list[0]?.id] or the value of the chosen menu item, which is an
    integer id. *)
Inductive selection : Type :=
| SelNull
| SelUndefined
| SelId (id : Z).

#[global] Instance selection_eq_dec : EqDecision selection.
Proof. solve_decision. Defined.

(** [a === b] on selections. *)
Definition sel_strict_eq (a b : selection) : bool := bool_decide (a = b).

(** Truthiness of a selection: [null], [undefined] and the number 0 are
    falsy. *)
Definition sel_truthy (a : selection) : bool :=
  match a with
  | SelId z => negb (Z.eqb z 0)
  | _ => false
  end.

(** [arr[0]?.f] *)
Definition first_id {A} (f : A -> Z) (l : list A) : selection :=
  match l with
  | x :: _ => SelId (f x)
  | [] => SelUndefined
  end.

(** Truthiness of a string-or-absent value. *)
Definition str_truthy (s : nullable string) : bool :=
  match s with
  | Def x => negb (String.eqb x "")
  | _ => false
  end.

(** An object keyed by integer ids ([table[obj.id] = obj]); the property
    key of an integer is its decimal form, so the table is indexed by the
    integer itself. [null] and [undefined] index the keys "null" and
    "undefined", which no id produces. *)
Definition index {A} (table : gmap Z A) (k : selection) : option A :=
  match k with
  | SelId z => table !! z
  | _ => None
  end.

(** [list.forEach((x) => { table[x.id] = x; })] from an empty object. *)
Definition lookUp {A} (id : A -> Z) (l : list A) : gmap Z A :=
  foldl (fun table x => <[id x := x]> table) ∅ l.

(** [Object.keys(table).includes(k?.toString())] *)
Definition Object_keys {A} (table : gmap Z A) : list Z :=
  (map_to_list table).*1.

Definition keys_include {A} (table : gmap Z A) (k : selection) : bool :=
  match k with
  | SelId z => bool_decide (z ∈ Object_keys table)
  | _ => false
  end.

(** [Array.prototype.sort(compareFn)] on a copy: a stable insertion sort.
    For a comparator that is a consistent ordering every conforming engine
    returns this very list. *)
Fixpoint sort_insert {A} (compareFn : A -> A -> Z) (x : A) (l : list A) : list A :=
  match l with
  | [] => [x]
  | y :: l' =>
      if Z.leb (compareFn x y) 0 then x :: y :: l'
      else y :: sort_insert compareFn x l'
  end.

Definition Array_sort {A} (compareFn : A -> A -> Z) (l : list A) : list A :=
  foldr (sort_insert compareFn) [] l.

End JS.

Notation "'let!' x ':=' c 'in' k" := (JS.bind c (fun x => k))
  (at level 10, x name, c at level 100, k at level 200).

(** ** Reference entities mirrored from the backend *)

Module Instrument.
Record t : Type := { id : Z; name : string; telescope_id : Z }.
End Instrument.

Module Localization.
Record t : Type := { id : Z; localization_name : string; created_at : string }.
End Localization.

Module GcnEvent.
Record t : Type := {
  id : Z;
  dateobs : string;
  localizations : JS.nullable (list Localization.t) }.
End GcnEvent.

(** Result collections held in the remote-state store. *)
Record source : Type := { source_id : string }.
Record galaxy : Type := { galaxy_name : string }.
Record observation : Type := { observation_id : Z }.

Module Sources.
Record t : Type := {
  sources : JS.nullable (list source);
  pageNumber : Z;
  totalMatches : Z;
  numPerPage : Z }.
End Sources.

Module Galaxies.
Record t : Type := {
  galaxies : JS.nullable (list galaxy);
  totalMatches : Z }.
End Galaxies.

Module Observations.
Record t : Type := {
  observations : JS.nullable (list observation);
  totalMatches : Z }.
End Observations.

(** ** Rendered output *)

#[warnings="-register-all"]
Inductive element : Type :=
| Div (children : list element)
| Typography (text : string)
| Br
| CircularProgress
| Button (label : string) (testid : string * JS.selection)
| Component (componentName : string)
| SourceTable (rows : JS.nullable (list source)) (pageNumber totalMatches numPerPage : Z)
| GalaxyTable (rows : list galaxy) (totalMatches : Z)
| ExecutedObservationsTable (rows : list observation) (totalMatches : Z).

(** [{cond && <X />}] *)
Definition when (cond : bool) (e : element) : list element :=
  if cond then [e] else [].

(** Does some [Typography] in the tree carry the given text? *)
Fixpoint shows_text (text : string) (e : element) : bool :=
  match e with
  | Div children => existsb (shows_text text) children
  | Typography t => String.eqb t text
  | _ => false
  end.

(** Does the tree contain a table of results? *)
Fixpoint shows_table (e : element) : bool :=
  match e with
  | Div children => existsb shows_table children
  | SourceTable _ _ _ _ | GalaxyTable _ _ | ExecutedObservationsTable _ _ => true
  | _ => false
  end.

(** Number of leaves that put something on screen. *)
Fixpoint visible_leaves (e : element) : nat :=
  match e with
  | Div children => list_sum (map visible_leaves children)
  | _ => 1
  end.

(** ** GcnSelectionForm *)

Module GcnSelectionForm.
Import JS.

Record state : Type := {
  selectedInstrumentId : selection;
  selectedLocalizationId : selection;
  selectedLocalizationName : nullable string;
  isSubmitting : bool;
  isSubmittingTreasureMap : selection;
  isDeletingTreasureMap : selection;
  tabIndex : Z }.

(** The [useState] initial values; the localization name is owned by the
    parent and arrives as a prop. *)
Definition initial (name : nullable string) : state :=
  {| selectedInstrumentId := SelNull;
     selectedLocalizationId := SelNull;
     selectedLocalizationName := name;
     isSubmitting := false;
     isSubmittingTreasureMap := SelNull;
     isDeletingTreasureMap := SelNull;
     tabIndex := 1 |}.

Definition setSelectedInstrumentId (v : selection) (s : state) : state :=
  {| selectedInstrumentId := v;
     selectedLocalizationId := selectedLocalizationId s;
     selectedLocalizationName := selectedLocalizationName s;
     isSubmitting := isSubmitting s;
     isSubmittingTreasureMap := isSubmittingTreasureMap s;
     isDeletingTreasureMap := isDeletingTreasureMap s;
     tabIndex := tabIndex s |}.

Definition setSelectedLocalizationId (v : selection) (s : state) : state :=
  {| selectedInstrumentId := selectedInstrumentId s;
     selectedLocalizationId := v;
     selectedLocalizationName := selectedLocalizationName s;
     isSubmitting := isSubmitting s;
     isSubmittingTreasureMap := isSubmittingTreasureMap s;
     isDeletingTreasureMap := isDeletingTreasureMap s;
     tabIndex := tabIndex s |}.

Definition setSelectedLocalizationName (v : nullable string) (s : state) : state :=
  {| selectedInstrumentId := selectedInstrumentId s;
     selectedLocalizationId := selectedLocalizationId s;
     selectedLocalizationName := v;
     isSubmitting := isSubmitting s;
     isSubmittingTreasureMap := isSubmittingTreasureMap s;
     isDeletingTreasureMap := isDeletingTreasureMap s;
     tabIndex := tabIndex s |}.

Definition setIsSubmittingTreasureMap (v : selection) (s : state) : state :=
  {| selectedInstrumentId := selectedInstrumentId s;
     selectedLocalizationId := selectedLocalizationId s;
     selectedLocalizationName := selectedLocalizationName s;
     isSubmitting := isSubmitting s;
     isSubmittingTreasureMap := v;
     isDeletingTreasureMap := isDeletingTreasureMap s;
     tabIndex := tabIndex s |}.

Definition setIsDeletingTreasureMap (v : selection) (s : state) : state :=
  {| selectedInstrumentId := selectedInstrumentId s;
     selectedLocalizationId := selectedLocalizationId s;
     selectedLocalizationName := selectedLocalizationName s;
     isSubmitting := isSubmitting s;
     isSubmittingTreasureMap := isSubmittingTreasureMap s;
     isDeletingTreasureMap := v;
     tabIndex := tabIndex s |}.

Definition setTabIndex (v : Z) (s : state) : state :=
  {| selectedInstrumentId := selectedInstrumentId s;
     selectedLocalizationId := selectedLocalizationId s;
     selectedLocalizationName := selectedLocalizationName s;
     isSubmitting := isSubmitting s;
     isSubmittingTreasureMap := isSubmittingTreasureMap s;
     isDeletingTreasureMap := isDeletingTreasureMap s;
     tabIndex := v |}.

(** *** Reference lists and lookup tables *)

(** The comparator of [sortedInstrumentList]: by name. *)
Definition by_name (i1 i2 : Instrument.t) : Z :=
  if String.ltb (Instrument.name i2) (Instrument.name i1) then 1
  else if String.ltb (Instrument.name i1) (Instrument.name i2) then -1
  else 0.

Definition sortedInstrumentList (instrumentList : list Instrument.t) : list Instrument.t :=
  Array_sort by_name instrumentList.

Definition instLookUp (instrumentList : list Instrument.t) : gmap Z Instrument.t :=
  lookUp Instrument.id (sortedInstrumentList instrumentList).

(** [gcnEvent?.localizations?.forEach(...)]: nothing is entered when the
    event or its localizations are absent. *)
Definition event_localizations (gcnEvent : nullable GcnEvent.t) : nullable (list Localization.t) :=
  opt_chain gcnEvent GcnEvent.localizations.

Definition locLookUp (gcnEvent : nullable GcnEvent.t) : gmap Z Localization.t :=
  match event_localizations gcnEvent with
  | Def locs => lookUp Localization.id locs
  | _ => ∅
  end.

(** *** Default selections *)

(** The comparator of [orderedInstrumentList]: the instrument called ZTF
    first, then by id. *)
Definition ZTF_first (i1 i2 : Instrument.t) : Z :=
  if String.eqb (Instrument.name i1) "ZTF" then -1
  else if String.eqb (Instrument.name i2) "ZTF" then 1
  else if Z.gtb (Instrument.id i1) (Instrument.id i2) then 1
  else if Z.gtb (Instrument.id i2) (Instrument.id i1) then -1
  else 0.

Definition named_ZTF (i : Instrument.t) : Prop := Instrument.name i = "ZTF".

Definition orderedInstrumentList (instrumentList : list Instrument.t) : list Instrument.t :=
  Array_sort ZTF_first instrumentList.

Definition first_name (localizations : list Localization.t) : nullable string :=
  match localizations with
  | loc :: _ => Def (Localization.localization_name loc)
  | [] => Undefined
  end.

Definition setDefaults (instrumentList : list Instrument.t)
    (localizations : list Localization.t) (s : state) : state :=
  let s := setSelectedInstrumentId
             (first_id Instrument.id (orderedInstrumentList instrumentList)) s in
  let s := setSelectedLocalizationId (first_id Localization.id localizations) s in
  setSelectedLocalizationName (first_name localizations) s.

(** The effect around [setDefaults]: it runs only for the loaded event, a
    non-empty instrument list and a non-empty localization list. *)
Definition defaults_effect (dateobs : string) (gcnEvent : nullable GcnEvent.t)
    (instrumentList : list Instrument.t) (s : state) : state :=
  match gcnEvent with
  | Def ev =>
      match GcnEvent.localizations ev with
      | Def locs =>
          if String.eqb dateobs (GcnEvent.dateobs ev)
             && negb (String.eqb dateobs "")
             && Nat.ltb 0 (length instrumentList)
             && Nat.ltb 0 (length locs)
          then setDefaults instrumentList locs s
          else s
      | _ => s
      end
  | _ => s
  end.

(** *** Sky-map overlay fetch *)

Definition of_option {A} (o : option A) : nullable A :=
  match o with
  | Some a => Def a
  | None => Undefined
  end.

Definition isSome {A} (o : option A) : bool :=
  match o with
  | Some _ => true
  | None => false
  end.

(** The arguments of [instrumentActions.fetchInstrumentSkymap]. *)
Record skymap_request : Type := {
  request_instrument_id : nullable Z;
  request_localization : nullable Localization.t }.

(** The effect keyed on the two selections: [Some request] when the fetch
    is dispatched, [None] when the effect does nothing. *)
Definition fetchSkymapInstrument_effect (instrumentList : list Instrument.t)
    (gcnEvent : nullable GcnEvent.t) (s : state) : option skymap_request :=
  let insts := instLookUp instrumentList in
  let locs := locLookUp gcnEvent in
  if isSome (index insts (selectedInstrumentId s))
     && keys_include locs (selectedLocalizationId s)
  then Some {| request_instrument_id :=
                 of_option (Instrument.id <$> index insts (selectedInstrumentId s));
               request_localization :=
                 of_option (index locs (selectedLocalizationId s)) |}
  else None.

Definition handleSelectedInstrumentChange (v : selection) (s : state) : state :=
  setSelectedInstrumentId v s.

(** [locLookUp[e.target.value].localization_name] raises when the chosen
    id is not in the table. *)
Definition handleSelectedLocalizationChange (gcnEvent : nullable GcnEvent.t)
    (v : selection) (s : state) : completion state :=
  match index (locLookUp gcnEvent) v with
  | Some loc =>
      Normal (setSelectedLocalizationName (Def (Localization.localization_name loc))
                (setSelectedLocalizationId v s))
  | None => Throw_TypeError
  end.

(** *** Query form validation *)

Section Validation.

Variable StringToNumber : string -> number.
Variable ArrayToString : list prim -> string.

(** [errors.field.addError(message)]: the error object has one handler per
    field; reading a field it does not have gives [undefined], and calling
    a method on that raises. *)
Definition addError (errors : gmap string (list string)) (field message : string)
    : completion (gmap string (list string)) :=
  match errors !! field with
  | Some messages => Normal (<[field := (messages ++ [message])%list]> errors)
  | None => Throw_TypeError
  end.

Definition validate (formData : gmap string value) (errors : gmap string (list string))
    : completion (gmap string (list string)) :=
  let! errors :=
    (if gt StringToNumber ArrayToString
          (get formData "start_date") (get formData "end_date")
     then addError errors "start_date"
            "Start date must be before end date, please fix."
     else Normal errors) in
  let! errors :=
    (if lt StringToNumber ArrayToString
          (get formData "localizationCumprob") (num 0)
        || gt StringToNumber ArrayToString
             (get formData "localizationCumprob") (PNum (Fin (101 # 100)))
     then addError errors "cumulative"
            "Value of cumulative should be between 0 and 1"
     else Normal errors) in
  Normal errors.

(** The form library hands [customValidate] an error object with one empty
    handler per key of the form data. *)
Definition createErrorHandler (formData : gmap string value) : gmap string (list string) :=
  (fun _ => []) <$> formData.

Definition has_errors (errors : gmap string (list string)) : bool :=
  existsb (fun entry => negb (Nat.eqb (length entry.2) 0)) (map_to_list errors).

(** What pressing Submit leads to, as far as [customValidate] decides it:
    [onSubmit] is called only when validation returns without errors. *)
Inductive submit_outcome : Type :=
| Submitted
| Blocked (errors : gmap string (list string))
| Raised.

Definition Form_submit (formData : gmap string value) : submit_outcome :=
  match validate formData (createErrorHandler formData) with
  | Normal errors => if has_errors errors then Blocked errors else Submitted
  | Throw_TypeError => Raised
  end.

End Validation.

(** *** Result panes *)

(** The [GcnEventSourcesPage] component. *)
Definition GcnEventSourcesPage (sources : nullable Sources.t) : element :=
  match sources with
  | Def page =>
      match Sources.sources page with
      | Def [] =>
          Div [Typography "Event sources"; Br;
               Typography "No sources within localization."]
      | rows =>
          Div [SourceTable rows (Sources.pageNumber page)
                 (Sources.totalMatches page) (Sources.numPerPage page)]
      end
  | _ =>
      Div [Typography "Event sources"; Br;
           Typography "No sources within localization."]
  end.

(** The content shown under [tabIndex === 2]. *)
Definition sources_pane (gcnEventSources : nullable Sources.t) (s : state) : element :=
  Div [match opt_chain gcnEventSources Sources.sources with
       | Def rows =>
           Div [if Nat.eqb (length rows) 0 then Typography "None"
                else Div (when (str_truthy (selectedLocalizationName s))
                            (GcnEventSourcesPage gcnEventSources))]
       | _ => Typography "Fetching sources..."
       end].

(** The content shown under [tabIndex === 3]. *)
Definition galaxies_pane (gcnEventGalaxies : nullable Galaxies.t) : element :=
  Div [match gcnEventGalaxies with
       | Def store =>
           match Galaxies.galaxies store with
           | Def rows =>
               Div [if Nat.eqb (length rows) 0 then Typography "None"
                    else Div [GalaxyTable rows (Galaxies.totalMatches store)]]
           | _ => Typography "Fetching galaxies..."
           end
       | _ => Typography "Fetching galaxies..."
       end].

(** The content shown under [tabIndex === 4]. *)
Definition observations_pane (gcnEventObservations : nullable Observations.t) : element :=
  Div [match gcnEventObservations with
       | Def store =>
           match Observations.observations store with
           | Def rows =>
               Div [if Nat.eqb (length rows) 0 then Typography "None"
                    else Div [ExecutedObservationsTable rows
                                (Observations.totalMatches store)]]
           | _ => Typography "Fetching observations..."
           end
       | _ => Typography "Fetching observations..."
       end].

(** The three result panes as the tab index selects them. *)
Definition results_tabs (gcnEventSources : nullable Sources.t)
    (gcnEventGalaxies : nullable Galaxies.t)
    (gcnEventObservations : nullable Observations.t) (s : state) : list element :=
  (when (Z.eqb (tabIndex s) 2) (sources_pane gcnEventSources s)
   ++ when (Z.eqb (tabIndex s) 3) (galaxies_pane gcnEventGalaxies)
   ++ when (Z.eqb (tabIndex s) 4) (observations_pane gcnEventObservations))%list.

(** The three states a result pane can be in, the one a collection calls
    for, and the ones an element puts on screen: the "fetching" line, the
    "None" line, a table. *)
Inductive pane_state : Type :=
| Fetching
| Empty
| Populated.

Definition collection_state {A} (collection : nullable (list A)) : pane_state :=
  match collection with
  | Def [] => Empty
  | Def (_ :: _) => Populated
  | _ => Fetching
  end.

Definition rendered_states (fetching : string) (e : element) : list pane_state :=
  (if shows_text fetching e then [Fetching] else [])
  ++ (if shows_text "None" e then [Empty] else [])
  ++ (if shows_table e then [Populated] else []).

(** *** Treasure Map actions *)

Definition treasureMap_fields : list string :=
  ["startDate"; "endDate"; "localizationCumprob"; "localizationName";
   "localizationDateobs"].

(** The payload both handlers build from the filter snapshot. *)
Definition treasureMap_data (filterParams : gmap string value) : gmap string value :=
  list_to_map (map (fun k => (k, get filterParams k)) treasureMap_fields).

Definition submit_control (s : state) : element :=
  if sel_strict_eq (isSubmittingTreasureMap s) (selectedInstrumentId s)
  then Div [CircularProgress]
  else Button "Send to Treasure Map" ("treasuremapRequest_", selectedInstrumentId s).

Definition delete_control (s : state) : element :=
  if sel_strict_eq (isDeletingTreasureMap s) (selectedInstrumentId s)
  then Div [CircularProgress]
  else Button "Retract from Treasure Map" ("treasuremapDelete_", selectedInstrumentId s).

Definition treasureMap_buttons (gcnEvent : nullable GcnEvent.t) (s : state) : element :=
  if present gcnEvent && sel_truthy (selectedLocalizationId s)
  then Div [Div [Component "GcnSummary";
                 Component "AddSurveyEfficiencyObservationsPage";
                 Component "AddCatalogQueryPage";
                 submit_control s;
                 delete_control s]]
  else CircularProgress.

(** [handleSubmitTreasureMap] runs in two parts separated by the awaited
    dispatch: the flag is set to the instrument id, the request leaves, and
    when it settles the flag is set back to [null]. The requests in flight
    are kept next to the component state. *)
Record world : Type := {
  ui : state;
  submitting : list selection;
  deleting : list selection }.

Inductive event : Type :=
| SelectInstrument (v : selection)
| ClickSendToTreasureMap
| SubmitSettled (id : selection)
| ClickRetractFromTreasureMap
| DeleteSettled (id : selection).

Fixpoint remove_one (x : selection) (l : list selection) : list selection :=
  match l with
  | [] => []
  | y :: l' => if bool_decide (x = y) then l' else y :: remove_one x l'
  end.

Definition is_button (e : element) : bool :=
  match e with
  | Button _ _ => true
  | _ => false
  end.

Definition step (w : world) (e : event) : world :=
  match e with
  | SelectInstrument v =>
      {| ui := handleSelectedInstrumentChange v (ui w);
         submitting := submitting w; deleting := deleting w |}
  | ClickSendToTreasureMap =>
      if is_button (submit_control (ui w))
      then {| ui := setIsSubmittingTreasureMap (selectedInstrumentId (ui w)) (ui w);
              submitting := selectedInstrumentId (ui w) :: submitting w;
              deleting := deleting w |}
      else w
  | SubmitSettled id =>
      if bool_decide (id ∈ submitting w)
      then {| ui := setIsSubmittingTreasureMap SelNull (ui w);
              submitting := remove_one id (submitting w);
              deleting := deleting w |}
      else w
  | ClickRetractFromTreasureMap =>
      if is_button (delete_control (ui w))
      then {| ui := setIsDeletingTreasureMap (selectedInstrumentId (ui w)) (ui w);
              submitting := submitting w;
              deleting := selectedInstrumentId (ui w) :: deleting w |}
      else w
  | DeleteSettled id =>
      if bool_decide (id ∈ deleting w)
      then {| ui := setIsDeletingTreasureMap SelNull (ui w);
              submitting := submitting w;
              deleting := remove_one id (deleting w) |}
      else w
  end.

Definition run (events : list event) (w : world) : world :=
  foldl step w events.

Definition start (name : nullable string) : world :=
  {| ui := initial name; submitting := []; deleting := [] |}.

(** The flag is [null] or names a submission that is still in flight. *)
Definition flag_in_flight (w : world) : Prop :=
  isSubmittingTreasureMap (ui w) = SelNull
  \/ isSubmittingTreasureMap (ui w) ∈ submitting w.

End GcnSelectionForm.

(** ** SkymapTriggerAPIDisplay *)

Module SkymapTriggerAPIDisplay.
Import JS.

Record state : Type := {
  selectedAllocationId : selection;
  triggerList : list string;
  selectedTriggerName : nullable string;
  selectedGcnEventId : selection;
  (** the values held by the form hook: [gcneventid], [localizationid] *)
  formValues : gmap string prim }.

Definition initial : state :=
  {| selectedAllocationId := SelNull;
     triggerList := ["None"];
     selectedTriggerName := Def "None";
     selectedGcnEventId := SelNull;
     formValues := {[ "gcneventid" := PStr ""; "localizationid" := PStr "" ]} |}.

(** The reply of the trigger-catalog request, read through
    [response?.data?.trigger_names]. *)
Record response_data : Type := { trigger_names : nullable (list string) }.
Record response : Type := { data : nullable response_data }.

Definition first_trigger (names : list string) : nullable string :=
  match names with
  | n :: _ => Def n
  | [] => Undefined
  end.

(** The part of [getTriggers] that runs once the awaited request has
    returned. *)
Definition getTriggers_settled (r : nullable response) (s : state) : state :=
  match opt_chain (opt_chain r data) trigger_names with
  | Def names =>
      if Nat.ltb 0 (length names)
      then {| selectedAllocationId := selectedAllocationId s;
              triggerList := names;
              selectedTriggerName := first_trigger names;
              selectedGcnEventId := selectedGcnEventId s;
              formValues := formValues s |}
      else {| selectedAllocationId := selectedAllocationId s;
              triggerList := ["None"];
              selectedTriggerName := Def "None";
              selectedGcnEventId := selectedGcnEventId s;
              formValues := formValues s |}
  | _ =>
      {| selectedAllocationId := selectedAllocationId s;
         triggerList := ["None"];
         selectedTriggerName := Def "None";
         selectedGcnEventId := selectedGcnEventId s;
         formValues := formValues s |}
  end.

(** [getTriggers] against a catalog service: the request is made only for
    a truthy allocation id and a non-empty allocation list. *)
Definition getTriggers {allocation : Type} (requestAPISkymapTriggers : selection -> nullable response)
    (allocationListApiObsplan : nullable (list allocation)) (s : state) : state :=
  if sel_truthy (selectedAllocationId s)
     && match allocationListApiObsplan with
        | Def l => Nat.ltb 0 (length l)
        | _ => false
        end
  then getTriggers_settled (requestAPISkymapTriggers (selectedAllocationId s)) s
  else s.

Definition handleSelectedTriggerNameChange (v : string) (s : state) : state :=
  {| selectedAllocationId := selectedAllocationId s;
     triggerList := triggerList s;
     selectedTriggerName := Def v;
     selectedGcnEventId := selectedGcnEventId s;
     formValues := formValues s |}.

(** [gcnEventsLookUp], and the entries offered by the event select: the
    "Clear Selection" entry with id -1 first. *)
Definition gcnEventsLookUp (gcnEvents : nullable (list GcnEvent.t)) : gmap Z GcnEvent.t :=
  match gcnEvents with
  | Def events => lookUp GcnEvent.id events
  | _ => ∅
  end.

Definition gcnEventsSelect (gcnEvents : nullable (list GcnEvent.t)) : list (Z * string) :=
  match gcnEvents with
  | Def events =>
      (-1, "Clear Selection")
        :: map (fun ev => (GcnEvent.id ev, GcnEvent.dateobs ev)) events
  | _ => []
  end.

(** [gcnEventsLookUp[v]?.localizations[0]?.id || ""] *)
Definition first_localization_or_empty (gcnEvents : nullable (list GcnEvent.t)) (v : Z)
    : completion prim :=
  match gcnEventsLookUp gcnEvents !! v with
  | None => Normal (or_else PUndefined (PStr ""))
  | Some ev =>
      match GcnEvent.localizations ev with
      | Def [] => Normal (or_else PUndefined (PStr ""))
      | Def (loc :: _) => Normal (or_else (num (Localization.id loc)) (PStr ""))
      | _ => Throw_TypeError
      end
  end.

(** The [onChange] of the event select, for the chosen menu value [v]. *)
Definition gcnEvent_onChange (gcnEvents : nullable (list GcnEvent.t)) (v : Z) (s : state)
    : completion state :=
  let gcneventid := if Z.eqb v (-1) then PStr "" else num v in
  let! localizationid :=
    (if Z.eqb v (-1) then Normal (PStr "")
     else first_localization_or_empty gcnEvents v) in
  Normal {| selectedAllocationId := selectedAllocationId s;
            triggerList := triggerList s;
            selectedTriggerName := selectedTriggerName s;
            selectedGcnEventId := SelId v;
            formValues := <["localizationid" := localizationid]>
                            (<["gcneventid" := gcneventid]> (formValues s)) |}.

(** The payloads of the two trigger actions. *)
Definition handleAdd_data (s : state) : selection * prim :=
  (selectedAllocationId s, default PUndefined (formValues s !! "localizationid")).


End SkymapTriggerAPIDisplay.

(** ** RecentGcnEvents *)

Module RecentGcnEvents.
Import JS.

Record prefs : Type := { maxNumEvents : prim }.

Definition defaultPrefs : prefs := {| maxNumEvents := PStr "5" |}.

(** [state.profile.preferences?.recentGcnEvents || defaultPrefs] *)
Definition recentEventsPrefs (stored : nullable prefs) : prefs :=
  match stored with
  | Def p => p
  | _ => defaultPrefs
  end.

(** The only use of the preference: the initial value of the dialog. *)
Definition WidgetPrefsDialog_initialValues (stored : nullable prefs) : prim :=
  maxNumEvents (recentEventsPrefs stored).

Record recent_event : Type := { dateobs : string }.

(** One [<li>] of the list: its key and the target of its link. *)
Record list_item : Type := { key : string; link_to : string }.

Definition render_item (gcnEvent : recent_event) : list_item :=
  {| key := dateobs gcnEvent; link_to := ("/gcn_events/" ++ dateobs gcnEvent)%string |}.

(** [gcnEvents?.map(...)]: the children of the [<ul>]. *)
Definition eventList (gcnEvents : nullable (list recent_event)) : list list_item :=
  match gcnEvents with
  | Def events => map render_item events
  | _ => []
  end.

(** The whole widget: what goes to the dialog and what is listed. *)
Definition render (stored : nullable prefs) (gcnEvents : nullable (list recent_event))
    : prim * list list_item :=
  (WidgetPrefsDialog_initialValues stored, eventList gcnEvents).

(** Reading of a preference value as a count, to state a bound on the
    list: a string of decimal digits or a non-negative whole number. *)
Definition digit_value (c : ascii) : option nat :=
  let n := nat_of_ascii c in
  if Nat.leb 48 n && Nat.leb n 57 then Some (n - 48)%nat else None.

Fixpoint digits_value (acc : nat) (s : string) : option nat :=
  match s with
  | EmptyString => Some acc
  | String c rest =>
      match digit_value c with
      | Some d => digits_value (10 * acc + d) rest
      | None => None
      end
  end.

Definition count_of (p : prim) : option nat :=
  match p with
  | PStr EmptyString => None
  | PStr s => digits_value 0 s
  | PNum (Fin q) =>
      if Z.leb 0 (Qnum q) && Z.eqb (Qnum q mod Zpos (Qden q)) 0
      then Some (Z.to_nat (Qnum q / Zpos (Qden q)))
      else None
  | _ => None
  end.

End RecentGcnEvents.

(** * The rest of the components

    The parts of the three components that the development above leaves
    out: the display toggles, the submission of the query form, the paging of
    the sources table, the grid template, the localization fetch, the menus,
    and what the trigger selector renders. *)

From Stdlib Require Import Sorted.

(** ** More of the language: strings and object literals *)

Module JSString.
Import JS.

Fixpoint drop (n : nat) (s : string) : string :=
  match n, s with
  | O, _ => s
  | S n', String _ s' => drop n' s'
  | S _, EmptyString => EmptyString
  end.

(** [s.replace(pattern, replacement)] for a string pattern: the first
    occurrence, if any, is replaced. *)
Fixpoint replace (pattern replacement s : string) : string :=
  if String.prefix pattern s
  then (replacement ++ drop (String.length pattern) s)%string
  else match s with
       | EmptyString => EmptyString
       | String c s' => String c (replace pattern replacement s')
       end.

(** [s.includes(pattern)] on strings. *)
Fixpoint includes (pattern s : string) : bool :=
  String.prefix pattern s
  || match s with
     | EmptyString => false
     | String _ s' => includes pattern s'
     end.

(** Does the character occur in the string? *)
Fixpoint has_char (c : ascii) (s : string) : bool :=
  match s with
  | EmptyString => false
  | String d s' => Ascii.eqb c d || has_char c s'
  end.

(** [`${x}`] for a string that may be absent. *)
Definition template (s : nullable string) : string :=
  match s with
  | Def x => x
  | Null => "null"
  | Undefined => "undefined"
  end.

(** [{...o}]: spreading [null] or [undefined] adds nothing. *)
Definition spread (o : nullable (gmap string value)) : gmap string value :=
  match o with
  | Def fields => fields
  | _ => ∅
  end.

(** [Object.fromEntries(entries)]: later entries win. *)
Definition Object_fromEntries {V} (entries : list (string * V)) : gmap string V :=
  foldl (fun o entry => <[entry.1 := entry.2]> o) ∅ entries.

(** [array.includes(target)] for a string target. *)
Definition array_includes (items : list prim) (target : string) : bool :=
  existsb (fun p => match p with
                    | PStr s => String.eqb s target
                    | _ => false
                    end) items.

(** [loc.id === k] for a selection [k]. *)
Definition id_is (k : selection) (z : Z) : bool :=
  match k with
  | SelId z' => Z.eqb z z'
  | _ => false
  end.

(** [items.map(f)] where [f] may raise: left to right, stopping at the
    first exception. *)
Fixpoint traverse {A B} (f : A -> completion B) (items : list A) : completion (list B) :=
  match items with
  | [] => Normal []
  | x :: rest =>
      let! y := f x in
      let! ys := traverse f rest in
      Normal (y :: ys)
  end.

End JSString.

(** ** Display toggles of GcnSelectionForm *)

Module DisplayOptions.
Import JS JSString GcnSelectionForm.

Definition displayOptions : list string :=
  ["localization"; "sources"; "galaxies"; "instrument"; "observations"].

Definition displayOptionsDefault : gmap string bool :=
  Object_fromEntries
    (map (fun x => if String.eqb x "localization" then (x, true) else (x, false))
       displayOptions).

(** [!o[k]]: a missing entry reads [undefined], whose negation is true. *)
Definition not_at (o : gmap string bool) (k : string) : bool :=
  negb (default false (o !! k)).

(** [displayOptions[position]] as a property key: out of range it is the
    key "undefined". *)
Definition option_key (position : nat) : string :=
  default "undefined" (displayOptions !! position).

(** The state is copied (through JSON), the chosen entry negated, and the
    copy becomes the new state. *)
Definition handleOnChange (position : nat) (checkedDisplayState : gmap string bool)
    : gmap string bool :=
  <[option_key position := not_at checkedDisplayState (option_key position)]>
    checkedDisplayState.

(** The state after a series of clicks on the checkboxes, given by their
    positions, from the initial [displayOptionsDefault]. *)
Definition clicks (positions : list nat) : gmap string bool :=
  foldl (fun checkedDisplayState position => handleOnChange position checkedDisplayState)
    displayOptionsDefault positions.

(** An array is truthy even when empty. *)
Definition array_truthy {A} (l : list A) : bool := true.

(** [displayOptionsAvailable] after the five tests made on every render. *)
Definition displayOptionsAvailable (instrumentList : list Instrument.t)
    (gcnEvent : nullable GcnEvent.t) (gcnEventSources : nullable Sources.t)
    (gcnEventObservations : nullable Observations.t)
    (gcnEventGalaxies : nullable Galaxies.t) : gmap string bool :=
  let available := Object_fromEntries (map (fun x => (x, true)) displayOptions) in
  let available :=
    if negb (array_truthy (sortedInstrumentList instrumentList))
    then <["instruments" := false]> available else available in
  let available :=
    if negb (present gcnEventSources)
    then <["sources" := false]> available else available in
  let available :=
    if negb (present gcnEventObservations)
    then <["observations" := false]> available else available in
  let available :=
    if negb (present gcnEventGalaxies)
    then <["galaxies" := false]> available else available in
  match event_localizations gcnEvent with
  | Def (_ :: _) => available
  | _ => <["localization" := false]> available
  end.

(** One checkbox of the "Show/Hide on Plot" group. *)
Record checkbox : Type := {
  label : string;
  checked : option bool;
  disabled : bool }.

Definition checkboxes (checkedDisplayState available : gmap string bool) : list checkbox :=
  map (fun option => {| label := option;
                        checked := checkedDisplayState !! option;
                        disabled := not_at available option |})
    displayOptions.

End DisplayOptions.

(** ** Submission of the query form *)

Module QuerySubmit.
Import JS JSString GcnSelectionForm.

(** The three fetches [handleSubmit] can dispatch, each with the event's
    [dateobs] and the content the form data object has when the call is
    made. *)
Inductive action : Type :=
| fetchGcnEventSources (dateobs : nullable string) (params : gmap string value)
| fetchGcnEventObservations (dateobs : nullable string) (params : gmap string value)
| fetchGcnEventGalaxies (dateobs : nullable string) (params : gmap string value).

(** Objects live in a store and are held by reference: the form data
    object handed to [handleSubmit] is changed in place, and the two state
    variables that receive it hold its address, not a copy. *)
Record form_store : Type := {
  ui : state;
  objects : gmap nat (gmap string value);
  sourceFilteringState : nat;
  formDataState : nat }.

Definition setIsSubmitting (v : bool) (st : form_store) : form_store :=
  {| ui := {| selectedInstrumentId := selectedInstrumentId (ui st);
              selectedLocalizationId := selectedLocalizationId (ui st);
              selectedLocalizationName := selectedLocalizationName (ui st);
              isSubmitting := v;
              isSubmittingTreasureMap := isSubmittingTreasureMap (ui st);
              isDeletingTreasureMap := isDeletingTreasureMap (ui st);
              tabIndex := tabIndex (ui st) |};
     objects := objects st;
     sourceFilteringState := sourceFilteringState st;
     formDataState := formDataState st |}.

Definition setSourceFilteringState (a : nat) (st : form_store) : form_store :=
  {| ui := ui st; objects := objects st;
     sourceFilteringState := a; formDataState := formDataState st |}.

Definition setFormDataState (a : nat) (st : form_store) : form_store :=
  {| ui := ui st; objects := objects st;
     sourceFilteringState := sourceFilteringState st; formDataState := a |}.

(** [object.k = v] on the object at address [a]. *)
Definition assign (a : nat) (k : string) (v : value) (st : form_store) : form_store :=
  {| ui := ui st;
     objects := <[a := <[k := v]> (objects st !!! a)]> (objects st);
     sourceFilteringState := sourceFilteringState st;
     formDataState := formDataState st |}.

(** What [formDataState] holds until the first completed submission: the
    two default dates, computed from the event's [dateobs]. *)
Definition initial_formData (defaultStartDate defaultEndDate : string)
    : gmap string value :=
  <["endDate" := VPrim (PStr defaultEndDate)]>
    (<["startDate" := VPrim (PStr defaultStartDate)]> ∅).

(** [d.replace("+00:00", "").replace(".000Z", "")]; only a string has a
    [replace] method. *)
Definition strip (s : string) : string :=
  replace ".000Z" "" (replace "+00:00" "" s).

Definition strip_offset (d : value) : completion value :=
  match d with
  | VPrim (PStr s) => Normal (VPrim (PStr (strip s)))
  | _ => Throw_TypeError
  end.

(** [formData.queryList.includes(target)]: arrays and strings have an
    [includes] method, nothing else does. *)
Definition queryList_includes (formData : gmap string value) (target : string)
    : completion bool :=
  match get formData "queryList" with
  | VArr items => Normal (array_includes items target)
  | VPrim (PStr s) => Normal (includes target s)
  | _ => Throw_TypeError
  end.

(** How far a run of [handleSubmit] got: the store and the calls made so
    far, and whether it ran to its end. *)
Record submit_run : Type := {
  after : form_store;
  dispatched : list action;
  completed : bool }.

Definition raised (st : form_store) (calls : list action) : submit_run :=
  {| after := st; dispatched := calls; completed := false |}.

Definition event_dateobs (gcnEvent : nullable GcnEvent.t) : nullable string :=
  opt_chain gcnEvent (fun ev => Def (GcnEvent.dateobs ev)).

(** [handleSubmit({ formData })] for the form data object at address [a]. *)
Definition handleSubmit (gcnEvent : nullable GcnEvent.t) (a : nat) (st : form_store)
    : submit_run :=
  let st := setIsSubmitting true st in
  match strip_offset (get (objects st !!! a) "startDate") with
  | Throw_TypeError => raised st []
  | Normal startDate =>
  let st := assign a "startDate" startDate st in
  match strip_offset (get (objects st !!! a) "endDate") with
  | Throw_TypeError => raised st []
  | Normal endDate =>
  let st := assign a "endDate" endDate st in
  let named :=
    if keys_include (locLookUp gcnEvent) (selectedLocalizationId (ui st))
    then match index (locLookUp gcnEvent) (selectedLocalizationId (ui st)) with
         | Some loc =>
             Normal (assign a "localizationName"
                       (VPrim (PStr (Localization.localization_name loc))) st)
         | None => Throw_TypeError
         end
    else Normal st in
  match named with
  | Throw_TypeError => raised st []
  | Normal st =>
  match queryList_includes (objects st !!! a) "sources" with
  | Throw_TypeError => raised st []
  | Normal wants_sources =>
  let calls :=
    if wants_sources
    then [fetchGcnEventSources (event_dateobs gcnEvent) (objects st !!! a)]
    else [] in
  let st := if wants_sources then setSourceFilteringState a st else st in
  let st := assign a "includeGeoJSON" (VPrim (PBool true)) st in
  match queryList_includes (objects st !!! a) "observations" with
  | Throw_TypeError => raised st calls
  | Normal wants_observations =>
  let calls :=
    if wants_observations
    then calls ++ [fetchGcnEventObservations (event_dateobs gcnEvent) (objects st !!! a)]
    else calls in
  match queryList_includes (objects st !!! a) "galaxies" with
  | Throw_TypeError => raised st calls
  | Normal wants_galaxies =>
  let calls :=
    if wants_galaxies
    then calls ++ [fetchGcnEventGalaxies (event_dateobs gcnEvent) (objects st !!! a)]
    else calls in
  {| after := setIsSubmitting false (setFormDataState a st);
     dispatched := calls;
     completed := true |}
  end end end end end end.

(** Which fetch a call is. *)
Definition target_of (call : action) : string :=
  match call with
  | fetchGcnEventSources _ _ => "sources"
  | fetchGcnEventObservations _ _ => "observations"
  | fetchGcnEventGalaxies _ _ => "galaxies"
  end.


Definition dateobs_of (call : action) : nullable string :=
  match call with
  | fetchGcnEventSources d _
  | fetchGcnEventObservations d _
  | fetchGcnEventGalaxies d _ => d
  end.

(** The content of the form data object when the fetches start: both
    dates stripped, and the localization name filled in when the selected
    localization is in the table. *)
Definition prepared (gcnEvent : nullable GcnEvent.t) (k : selection)
    (formData : gmap string value) (startDate endDate : string) : gmap string value :=
  let formData :=
    <["endDate" := VPrim (PStr (strip endDate))]>
      (<["startDate" := VPrim (PStr (strip startDate))]> formData) in
  match index (locLookUp gcnEvent) k with
  | Some loc =>
      <["localizationName" := VPrim (PStr (Localization.localization_name loc))]>
        formData
  | None => formData
  end.

(** The answer of [queryList.includes(target)] when it gives one. *)
Definition wants (formData : gmap string value) (target : string) : bool :=
  match queryList_includes formData target with
  | Normal b => b
  | Throw_TypeError => false
  end.

(** The form data can be submitted without raising: both dates are
    strings and the query list has an [includes] method. *)
Definition submittable (formData : gmap string value) : bool :=
  match get formData "startDate", get formData "endDate", get formData "queryList" with
  | VPrim (PStr _), VPrim (PStr _), (VArr _ | VPrim (PStr _)) => true
  | _, _, _ => false
  end.

End QuerySubmit.

(** ** Paging and sorting of the sources table *)

Module SourcesPage.
Import JS JSString.

(** [sourcesRowsPerPage], from [useState(100)]. *)
Definition initial_rows : value := VPrim (num 100).

(** [sortData && Object.keys(sortData).length > 0] *)
Definition has_sort (sortData : nullable (gmap string value)) : bool :=
  match sortData with
  | Def fields => Nat.ltb 0 (length (map_to_list fields))
  | _ => false
  end.

(** [sortData.f]: raises on an absent [sortData]. *)
Definition sort_field (sortData : nullable (gmap string value)) (f : string)
    : completion value :=
  match sortData with
  | Def fields => Normal (get fields f)
  | _ => Throw_TypeError
  end.

(** The call [sourcesActions.fetchGcnEventSources(dateobs, data)] made by
    [handleSourcesTableSorting]. *)
Definition handleSourcesTableSorting (dateobs localizationName : string)
    (sourcesRowsPerPage : value)
    (sortData filterData : nullable (gmap string value))
    : completion (string * gmap string value) :=
  let data := spread filterData in
  let data := <["localizationName" := VPrim (PStr localizationName)]> data in
  let data := <["pageNumber" := VPrim (num 1)]> data in
  let data := <["numPerPage" := sourcesRowsPerPage]> data in
  let! name := sort_field sortData "name" in
  let data := <["sortBy" := name]> data in
  let! direction := sort_field sortData "direction" in
  let data := <["sortOrder" := direction]> data in
  Normal (dateobs, data).

(** [handleSourcesTablePagination]: the new [sourcesRowsPerPage] and the
    call made. *)
Definition handleSourcesTablePagination (dateobs localizationName : string)
    (pageNumber numPerPage : value)
    (sortData filterData : nullable (gmap string value))
    : value * (string * gmap string value) :=
  let data := spread filterData in
  let data := <["localizationName" := VPrim (PStr localizationName)]> data in
  let data := <["pageNumber" := pageNumber]> data in
  let data := <["numPerPage" := numPerPage]> data in
  let data :=
    if has_sort sortData
    then <["sortOrder" := get (spread sortData) "direction"]>
           (<["sortBy" := get (spread sortData) "name"]> data)
    else data in
  (numPerPage, (dateobs, data)).

End SourcesPage.

(** ** The grid template of the query form *)

Module FieldTemplate.
Import JS JSString.

(** One grid item: its width, its key, and the content placed in it. *)
Record cell (C : Type) : Type := { xs : Z; key : string; content : C }.
Arguments xs {C} _.
Arguments key {C} _.
Arguments content {C} _.

(** [properties.find((p) => p.name === fieldName).content] *)
Definition property_content {C} (properties : list (string * C)) (fieldName : string)
    : completion C :=
  match List.find (fun p => String.eqb p.1 fieldName) properties with
  | Some p => Normal p.2
  | None => Throw_TypeError
  end.

(** The template: one row per entry of ["ui:grid"], one item per key of the
    row, in the order of the keys. *)
Definition MyObjectFieldTemplate {C} (properties : list (string * C))
    (grid : list (list (string * Z))) : completion (list (list (cell C))) :=
  traverse
    (fun row =>
       traverse
         (fun field =>
            let! c := property_content properties field.1 in
            Normal {| xs := field.2; key := field.1; content := c |})
         row)
    grid.

(** The ["ui:grid"] of the query form and the properties of its schema. *)
Definition uiSchema_grid : list (list (string * Z)) :=
  [[("startDate", 6); ("endDate", 6)];
   [("numberDetections", 4); ("localizationCumprob", 4); ("maxDistance", 4)];
   [("localizationRejectSources", 12)];
   [("queryList", 6); ("group_ids", 6)]].

Definition schema_properties : list string :=
  ["startDate"; "endDate"; "numberDetections"; "localizationCumprob";
   "maxDistance"; "localizationRejectSources"; "queryList"; "group_ids"].

Definition schema_required : list string :=
  ["startDate"; "endDate"; "localizationCumprob"; "queryList"].

End FieldTemplate.

(** ** More reference entities *)

Module Telescope.
Record t : Type := { id : Z; name : string }.
End Telescope.

Module Group.
Record t : Type := { id : Z; name : string }.
End Group.

Module Allocation.
Record t : Type := { id : Z; instrument_id : Z; group_id : Z; pi : string }.
End Allocation.

(** ** The localization fetch and the menus of GcnSelectionForm *)

Module SelectionMenus.
Import JS JSString GcnSelectionForm.

(** The arguments of [localizationActions.fetchLocalization]. *)
Record localization_request : Type := {
  request_dateobs : string;
  request_name : nullable string;
  request_type : string }.

(** [localizations.find((loc) => loc.id === selectedLocalizationId)] *)
Definition find_localization (localizations : list Localization.t) (k : selection)
    : option Localization.t :=
  List.find (fun loc => id_is k (Localization.id loc)) localizations.

(** The effect keyed on the localization name: [Normal None] when it does
    nothing. With the event loaded but its localizations absent, [find] is
    called on [undefined]. *)
Definition fetchLocalization_effect (gcnEvent : nullable GcnEvent.t) (s : state)
    : completion (option localization_request) :=
  if str_truthy (selectedLocalizationName s)
     && str_truthy (QuerySubmit.event_dateobs gcnEvent)
  then match gcnEvent with
       | Def ev =>
           match GcnEvent.localizations ev with
           | Def locs =>
               Normal (Some {| request_dateobs := GcnEvent.dateobs ev;
                               request_name :=
                                 of_option (Localization.localization_name
                                              <$> find_localization locs
                                                    (selectedLocalizationId s));
                               request_type := "analysis" |})
           | _ => Throw_TypeError
           end
       | _ => Normal None
       end
  else Normal None.

Definition telLookUp (telescopeList : list Telescope.t) : gmap Z Telescope.t :=
  lookUp Telescope.id telescopeList.

(** The entries of the localization select: value and label. *)
Definition localization_items (gcnEvent : nullable GcnEvent.t) : list (Z * string) :=
  match event_localizations gcnEvent with
  | Def locs =>
      map (fun loc =>
             (Localization.id loc,
              ("Skymap: " ++ Localization.localization_name loc
               ++ " / Created: " ++ Localization.created_at loc)%string))
        locs
  | _ => []
  end.

(** The entries of the instrument select, in the order of
    [sortedInstrumentList]; the telescope name is read with [?.]. *)
Definition instrument_items (telescopeList : list Telescope.t)
    (instrumentList : list Instrument.t) : list (Z * string) :=
  map (fun instrument =>
         (Instrument.id instrument,
          (template (of_option (Telescope.name
                                  <$> telLookUp telescopeList
                                        !! Instrument.telescope_id instrument))
           ++ " / " ++ Instrument.name instrument)%string))
    (sortedInstrumentList instrumentList).

(** The order the instrument menu is in: no name is greater than the one
    that follows it. *)
Definition name_not_after (i1 i2 : Instrument.t) : Prop :=
  String.ltb (Instrument.name i2) (Instrument.name i1) = false.

End SelectionMenus.

(** ** What SkymapTriggerAPIDisplay renders *)

Module TriggerSelectorView.
Import JS JSString SkymapTriggerAPIDisplay.

(** [setSelectedAllocationId(data[0]?.id)] once the allocations arrived. *)
Definition getAllocations_settled (data : list Allocation.t) (s : state) : state :=
  {| selectedAllocationId := first_id Allocation.id data;
     triggerList := triggerList s;
     selectedTriggerName := selectedTriggerName s;
     selectedGcnEventId := selectedGcnEventId s;
     formValues := formValues s |}.

Definition handleSelectedAllocationChange (v : Z) (s : state) : state :=
  {| selectedAllocationId := SelId v;
     triggerList := triggerList s;
     selectedTriggerName := selectedTriggerName s;
     selectedGcnEventId := selectedGcnEventId s;
     formValues := formValues s |}.

(** The label of an allocation: every lookup is followed by a plain
    property read, so a missing instrument, telescope or group raises. *)
Definition allocation_label (telescopeList : list Telescope.t)
    (instrumentList : list Instrument.t) (allGroups : list Group.t)
    (allocation : Allocation.t) : completion string :=
  match lookUp Instrument.id instrumentList !! Allocation.instrument_id allocation with
  | None => Throw_TypeError
  | Some instrument =>
      match lookUp Telescope.id telescopeList !! Instrument.telescope_id instrument with
      | None => Throw_TypeError
      | Some telescope =>
          match lookUp Group.id allGroups !! Allocation.group_id allocation with
          | None => Throw_TypeError
          | Some group =>
              Normal (Telescope.name telescope ++ " / " ++ Instrument.name instrument
                      ++ " - " ++ Group.name group
                      ++ " (PI " ++ Allocation.pi allocation ++ ")")%string
          end
      end
  end.

(** The entries of the localization select: those of the selected event,
    none when the selection is not a loaded event. *)
Definition localization_items (gcnEvents : nullable (list GcnEvent.t)) (s : state)
    : list (Z * string) :=
  match index (gcnEventsLookUp gcnEvents) (selectedGcnEventId s) with
  | Some ev =>
      match GcnEvent.localizations ev with
      | Def locs =>
          map (fun loc => (Localization.id loc, Localization.localization_name loc)) locs
      | _ => []
      end
  | None => []
  end.

Record selector : Type := {
  allocation_items : list (Z * string);
  allocation_value : selection;
  event_items : list (Z * string);
  event_value : prim;
  localization_entries : list (Z * string);
  localization_value : prim;
  localization_disabled : bool;
  trigger_items : list string;
  trigger_value : nullable string }.

Inductive view : Type :=
| NoInstruments
| NoAllocations
| Selector (controls : selector).

(** The component body after its hooks. *)
Definition render (allGroups : nullable (list Group.t))
    (telescopeList : list Telescope.t) (instrumentList : list Instrument.t)
    (allocationListApiObsplan : list Allocation.t)
    (gcnEvents : nullable (list GcnEvent.t)) (s : state) : completion view :=
  match allGroups with
  | Def groups =>
      if Nat.eqb (length groups) 0
         || Nat.eqb (length telescopeList) 0
         || Nat.eqb (length instrumentList) 0
      then Normal NoInstruments
      else if Nat.eqb (length allocationListApiObsplan) 0
      then Normal NoAllocations
      else
        let! labels :=
          traverse
            (fun allocation =>
               let! l := allocation_label telescopeList instrumentList groups allocation in
               Normal (Allocation.id allocation, l))
            allocationListApiObsplan in
        Normal (Selector
          {| allocation_items := labels;
             allocation_value := selectedAllocationId s;
             event_items := gcnEventsSelect gcnEvents;
             event_value := or_else (default PUndefined (formValues s !! "gcneventid"))
                              (PStr "");
             localization_entries := localization_items gcnEvents s;
             localization_value :=
               or_else (default PUndefined (formValues s !! "localizationid")) (PStr "");
             localization_disabled := negb (sel_truthy (selectedGcnEventId s));
             trigger_items := triggerList s;
             trigger_value := selectedTriggerName s |})
  | _ => Normal NoInstruments
  end.

(** What can happen to the selector: the allocations arrive, an
    allocation is chosen, the trigger effect runs against a catalog service,
    a trigger name is chosen from the menu (which offers the trigger list),
    an event is chosen (a handler that raises leaves the state as it was). *)
Inductive event : Type :=
| AllocationsArrived (data : list Allocation.t)
| ChooseAllocation (v : Z)
| TriggersEffect (requestAPISkymapTriggers : selection -> nullable response)
    (allocationListApiObsplan : nullable (list Allocation.t))
| ChooseTrigger (v : string)
| ChooseEvent (gcnEvents : nullable (list GcnEvent.t)) (v : Z).

Definition step (s : state) (e : event) : state :=
  match e with
  | AllocationsArrived data => getAllocations_settled data s
  | ChooseAllocation v => handleSelectedAllocationChange v s
  | TriggersEffect request allocations => getTriggers request allocations s
  | ChooseTrigger v =>
      if bool_decide (v ∈ triggerList s) then handleSelectedTriggerNameChange v s
      else s
  | ChooseEvent gcnEvents v =>
      match gcnEvent_onChange gcnEvents v s with
      | Normal s' => s'
      | Throw_TypeError => s
      end
  end.

Definition run (events : list event) : state := foldl step initial events.


End TriggerSelectorView.

(** ** Sample inputs *)

Module Samples.
Import JS.

(** A filled-in query form whose start date is after its end date. *)
Definition late_start_form : gmap string value :=
  list_to_map
    [("startDate", VPrim (PStr "2023-05-10 00:00:00"));
     ("endDate", VPrim (PStr "2023-05-01 00:00:00"));
     ("numberDetections", VPrim (num 2));
     ("localizationCumprob", VPrim (PNum (Fin (95 # 100))));
     ("maxDistance", VPrim (num 150));
     ("queryList", VArr [PStr "sources"]);
     ("group_ids", VArr [num 1])].

(** A filled-in query form whose cumulative probability is 2. *)
Definition cumprob_two_form : gmap string value :=
  list_to_map
    [("startDate", VPrim (PStr "2023-05-01 00:00:00"));
     ("endDate", VPrim (PStr "2023-05-08 00:00:00"));
     ("numberDetections", VPrim (num 2));
     ("localizationCumprob", VPrim (num 2));
     ("maxDistance", VPrim (num 150));
     ("queryList", VArr [PStr "sources"]);
     ("group_ids", VArr [num 1])].

(** Three instruments, the one called ZTF neither first in the list nor of
    least id, and two localizations. *)
Definition WINTER : Instrument.t :=
  {| Instrument.id := 3; Instrument.name := "WINTER"; Instrument.telescope_id := 2 |}.
Definition DECam : Instrument.t :=
  {| Instrument.id := 1; Instrument.name := "DECam"; Instrument.telescope_id := 5 |}.
Definition ZTF : Instrument.t :=
  {| Instrument.id := 2; Instrument.name := "ZTF"; Instrument.telescope_id := 1 |}.

Definition bayestar : Localization.t :=
  {| Localization.id := 11;
     Localization.localization_name := "bayestar.fits.gz";
     Localization.created_at := "2023-05-01T10:00:00" |}.
Definition bilby : Localization.t :=
  {| Localization.id := 7;
     Localization.localization_name := "Bilby.multiorder.fits";
     Localization.created_at := "2023-05-02T08:30:00" |}.

Definition S230501 : GcnEvent.t :=
  {| GcnEvent.id := 41;
     GcnEvent.dateobs := "2023-05-01T09:58:12";
     GcnEvent.localizations := Def [bayestar; bilby] |}.

(** A sources query that found one source. *)
Definition found_one : nullable Sources.t :=
  Def {| Sources.sources := Def [{| source_id := "ZTF23aaxyzab" |}];
         Sources.pageNumber := 1;
         Sources.totalMatches := 1;
         Sources.numPerPage := 100 |}.

(** A trigger catalog with two names, and the selector after it arrived. *)
Definition two_triggers : nullable SkymapTriggerAPIDisplay.response :=
  Def {| SkymapTriggerAPIDisplay.data :=
           Def {| SkymapTriggerAPIDisplay.trigger_names :=
                    Def ["ZTF_S230501_1"; "ZTF_S230501_2"] |} |}.

Definition after_catalog : SkymapTriggerAPIDisplay.state :=
  SkymapTriggerAPIDisplay.getTriggers_settled two_triggers
    SkymapTriggerAPIDisplay.initial.

(** Six recent events in the store. *)
Definition six_events : nullable (list RecentGcnEvents.recent_event) :=
  Def [{| RecentGcnEvents.dateobs := "2023-05-01T09:58:12" |};
       {| RecentGcnEvents.dateobs := "2023-04-28T21:12:40" |};
       {| RecentGcnEvents.dateobs := "2023-04-21T03:45:09" |};
       {| RecentGcnEvents.dateobs := "2023-04-17T11:30:00" |};
       {| RecentGcnEvents.dateobs := "2023-04-02T18:02:51" |};
       {| RecentGcnEvents.dateobs := "2023-03-30T06:20:33" |}].

End Samples.

(** ** More sample inputs *)

Module Samples2.
Import JS Samples.

(** A store in which the object at address 2 is a filled-in form asking for
    sources and galaxies, with ISO dates. *)
Definition iso_form : gmap string value :=
  list_to_map
    [("startDate", VPrim (PStr "2023-05-01T00:00:00.000Z"));
     ("endDate", VPrim (PStr "2023-05-08T00:00:00+00:00"));
     ("numberDetections", VPrim (num 2));
     ("localizationCumprob", VPrim (PNum (Fin (95 # 100))));
     ("maxDistance", VPrim (num 150));
     ("queryList", VArr [PStr "sources"; PStr "galaxies"]);
     ("group_ids", VArr [num 1])].

Definition before_submit : QuerySubmit.form_store :=
  {| QuerySubmit.ui :=
       GcnSelectionForm.setDefaults [WINTER; DECam; ZTF] [bayestar; bilby]
         (GcnSelectionForm.initial Null);
     QuerySubmit.objects :=
       {[ 0%nat := list_to_map
                     [("startDate", VPrim PNull); ("endDate", VPrim PNull);
                      ("localizationName", VPrim PNull);
                      ("localizationCumprob", VPrim PNull)];
          1%nat := list_to_map
                     [("startDate", VPrim (PStr "2023-05-01 09:58:12"));
                      ("endDate", VPrim (PStr "2023-05-08 09:58:12"))];
          2%nat := iso_form ]};
     QuerySubmit.sourceFilteringState := 0%nat;
     QuerySubmit.formDataState := 1%nat |}.

(** The same store with a form whose query list is missing. *)
Definition before_bad_submit : QuerySubmit.form_store :=
  QuerySubmit.assign 2 "queryList" (VPrim PUndefined) before_submit.

(** One telescope, one group, an allocation on ZTF and an allocation on
    an instrument that is not loaded. *)
Definition P48 : Telescope.t := {| Telescope.id := 1; Telescope.name := "P48" |}.

Definition sitewide : Group.t := {| Group.id := 1; Group.name := "Sitewide Group" |}.

Definition ztf_allocation : Allocation.t :=
  {| Allocation.id := 9; Allocation.instrument_id := 2;
     Allocation.group_id := 1; Allocation.pi := "Kulkarni" |}.

Definition orphan_allocation : Allocation.t :=
  {| Allocation.id := 10; Allocation.instrument_id := 77;
     Allocation.group_id := 1; Allocation.pi := "Nobody" |}.

End Samples2.

(** ** Query form validation *)

Section ValidationFacts.
Import JS GcnSelectionForm Samples.

Variable StringToNumber : string -> number.
Variable ArrayToString : list prim -> string.

Lemma num_lessThan_NaN_r (x : number) : num_lessThan x NaN = None.
Proof. destruct x; reflexivity. Qed.

Lemma gt_undefined_l (y : value) :
  gt StringToNumber ArrayToString (VPrim PUndefined) y = false.
Proof.
  unfold gt, lessThan; simpl.
  destruct (ToPrimitive ArrayToString y); simpl; try reflexivity;
    now rewrite num_lessThan_NaN_r.
Qed.

Lemma get_missing (o : gmap string value) (k : string) :
  o !! k = None -> get o k = VPrim PUndefined.
Proof. unfold get; intros ->; reflexivity. Qed.

(** The date comparison reads [start_date]; a form that has no such key
    never gets a date error, whatever its [startDate] and [endDate]. *)
Lemma validate_without_start_date (formData : gmap string value)
    (errors : gmap string (list string)) :
  formData !! "start_date" = None ->
  validate StringToNumber ArrayToString formData errors =
    (if lt StringToNumber ArrayToString (get formData "localizationCumprob") (num 0)
        || gt StringToNumber ArrayToString
             (get formData "localizationCumprob") (PNum (Fin (101 # 100)))
     then addError errors "cumulative" "Value of cumulative should be between 0 and 1"
     else Normal errors).
Proof.
  intros Hs. unfold validate.
  rewrite (get_missing _ _ Hs), gt_undefined_l. simpl.
  destruct (_ || _); [destruct (addError _ _ _)|]; reflexivity.
Qed.

(** The probability error is addressed to a handler called [cumulative];
    an error object without that handler makes the call raise, and one
    with it receives the message. *)
Lemma validate_cumprob_raises (formData : gmap string value)
    (errors : gmap string (list string)) :
  formData !! "start_date" = None ->
  errors !! "cumulative" = None ->
  lt StringToNumber ArrayToString (get formData "localizationCumprob") (num 0)
    || gt StringToNumber ArrayToString
         (get formData "localizationCumprob") (PNum (Fin (101 # 100))) = true ->
  validate StringToNumber ArrayToString formData errors = Throw_TypeError.
Proof.
  intros Hs He Hc. rewrite validate_without_start_date by assumption.
  rewrite Hc. unfold addError. now rewrite He.
Qed.

Lemma validate_cumprob_reports (formData : gmap string value)
    (errors : gmap string (list string)) (messages : list string) :
  formData !! "start_date" = None ->
  errors !! "cumulative" = Some messages ->
  lt StringToNumber ArrayToString (get formData "localizationCumprob") (num 0)
    || gt StringToNumber ArrayToString
         (get formData "localizationCumprob") (PNum (Fin (101 # 100))) = true ->
  validate StringToNumber ArrayToString formData errors =
    Normal (<["cumulative" :=
               (messages ++ ["Value of cumulative should be between 0 and 1"])%list]>
              errors).
Proof.
  intros Hs He Hc. rewrite validate_without_start_date by assumption.
  rewrite Hc. unfold addError. now rewrite He.
Qed.

(** The error object built for a form has exactly the form's keys. *)
Lemma createErrorHandler_lookup (formData : gmap string value) (k : string) :
  createErrorHandler formData !! k = (fun _ => []) <$> (formData !! k).
Proof. unfold createErrorHandler. apply lookup_fmap. Qed.

(** C1, on the code: a form whose start date ("2023-05-10 00:00:00") is
    after its end date ("2023-05-01 00:00:00") passes [validate] with the
    error object untouched, and the submission goes through. The check in
    [validate] compares the keys [start_date] and [end_date], which the form
    does not have. *)
Theorem validate_accepts_start_after_end :
  gt StringToNumber ArrayToString
     (get late_start_form "startDate") (get late_start_form "endDate") = true
  /\ validate StringToNumber ArrayToString late_start_form
       (createErrorHandler late_start_form)
     = Normal (createErrorHandler late_start_form)
  /\ has_errors (createErrorHandler late_start_form) = false
  /\ Form_submit StringToNumber ArrayToString late_start_form = Submitted.
Proof. repeat split; vm_compute; reflexivity. Qed.

(** C2, on the code: for a form whose cumulative probability is 2 the
    range test of [validate] fires, but the error is addressed to the
    handler [cumulative], which the error object of the form does not have
    (the field is called [localizationCumprob]); the call raises and no
    field error is recorded. *)
Theorem validate_raises_on_cumprob_two :
  gt StringToNumber ArrayToString
     (get cumprob_two_form "localizationCumprob") (PNum (Fin (101 # 100))) = true
  /\ createErrorHandler cumprob_two_form !! "cumulative" = None
  /\ createErrorHandler cumprob_two_form !! "localizationCumprob" = Some []
  /\ validate StringToNumber ArrayToString cumprob_two_form
       (createErrorHandler cumprob_two_form)
     = Throw_TypeError
  /\ Form_submit StringToNumber ArrayToString cumprob_two_form = Raised.
Proof. repeat split; vm_compute; reflexivity. Qed.

End ValidationFacts.

(** ** Default selections *)

Section SortFacts.
Import JS.

Context {A : Type} (compareFn : A -> A -> Z).

Lemma sort_insert_elem (x y : A) (l : list A) :
  y ∈ sort_insert compareFn x l <-> y = x \/ y ∈ l.
Proof.
  induction l as [|z l IH]; simpl.
  - rewrite elem_of_cons. tauto.
  - destruct (Z.leb _ _).
    + rewrite elem_of_cons. tauto.
    + rewrite !elem_of_cons, IH. tauto.
Qed.

Lemma Array_sort_elem (y : A) (l : list A) :
  y ∈ Array_sort compareFn l <-> y ∈ l.
Proof.
  induction l as [|x l IH]; simpl; [tauto|].
  rewrite sort_insert_elem, elem_of_cons, IH. tauto.
Qed.

Lemma Array_sort_length (l : list A) :
  length (Array_sort compareFn l) = length l.
Proof.
  induction l as [|x l IH]; simpl; [reflexivity|].
  rewrite <- IH. generalize (Array_sort compareFn l) as sl.
  induction sl as [|z sl IHs]; simpl; [reflexivity|].
  destruct (Z.leb _ _); simpl; congruence.
Qed.

End SortFacts.

Section DefaultsFacts.
Import JS GcnSelectionForm.

Lemma ZTF_first_l (i1 i2 : Instrument.t) :
  named_ZTF i1 -> ZTF_first i1 i2 = -1.
Proof. unfold named_ZTF, ZTF_first. intros ->. reflexivity. Qed.

Lemma ZTF_first_r (i1 i2 : Instrument.t) :
  ~ named_ZTF i1 -> named_ZTF i2 -> ZTF_first i1 i2 = 1.
Proof.
  unfold named_ZTF, ZTF_first. intros H1 H2.
  destruct (String.eqb_spec (Instrument.name i1) "ZTF"); [contradiction|].
  rewrite H2. reflexivity.
Qed.

Lemma ZTF_first_by_id (i1 i2 : Instrument.t) :
  ~ named_ZTF i1 -> ~ named_ZTF i2 ->
  (ZTF_first i1 i2 <=? 0) = (Instrument.id i1 <=? Instrument.id i2).
Proof.
  unfold named_ZTF, ZTF_first. intros H1 H2.
  destruct (String.eqb_spec (Instrument.name i1) "ZTF"); [contradiction|].
  destruct (String.eqb_spec (Instrument.name i2) "ZTF"); [contradiction|].
  destruct (Z.gtb_spec (Instrument.id i1) (Instrument.id i2)).
  - symmetry. simpl. apply Z.leb_gt. lia.
  - destruct (Z.gtb_spec (Instrument.id i2) (Instrument.id i1));
      simpl; symmetry; apply Z.leb_le; lia.
Qed.

Lemma named_ZTF_dec (i : Instrument.t) : {named_ZTF i} + {~ named_ZTF i}.
Proof. unfold named_ZTF. destruct (String.eqb_spec (Instrument.name i) "ZTF"); auto. Qed.

(** Inserting keeps an instrument called ZTF at the front. *)
Lemma sort_insert_head_ZTF (x : Instrument.t) (sl : list Instrument.t) :
  named_ZTF x \/ (exists z, head sl = Some z /\ named_ZTF z) ->
  exists z, head (sort_insert ZTF_first x sl) = Some z /\ named_ZTF z.
Proof.
  intros H. destruct sl as [|y sl]; simpl.
  - destruct H as [H|(z & Hz & _)]; [eauto|discriminate].
  - destruct (named_ZTF_dec x) as [Hx|Hx].
    + rewrite (ZTF_first_l _ _ Hx). simpl. eauto.
    + destruct H as [H|(z & Hz & HZ)]; [contradiction|].
      simpl in Hz. injection Hz as ->.
      rewrite (ZTF_first_r _ _ Hx HZ). simpl. eauto.
Qed.

Lemma orderedInstrumentList_head_ZTF (l : list Instrument.t) :
  Exists named_ZTF l ->
  exists z, head (orderedInstrumentList l) = Some z /\ named_ZTF z.
Proof.
  unfold orderedInstrumentList.
  induction l as [|x l IH]; intros H; [inversion H|].
  simpl. apply sort_insert_head_ZTF.
  inversion H; subst; auto.
Qed.

(** Without any ZTF, inserting keeps an instrument of least id in front. *)
Lemma sort_insert_head_least (x : Instrument.t) (sl : list Instrument.t) :
  ~ named_ZTF x -> Forall (fun i => ~ named_ZTF i) sl ->
  (forall m, head sl = Some m -> forall j, j ∈ sl -> Instrument.id m <= Instrument.id j) ->
  forall m, head (sort_insert ZTF_first x sl) = Some m ->
  forall j, j ∈ sort_insert ZTF_first x sl -> Instrument.id m <= Instrument.id j.
Proof.
  intros Hx Hsl Hmin m Hm j Hj.
  apply sort_insert_elem in Hj.
  destruct sl as [|y sl]; simpl in Hm.
  - injection Hm as <-. destruct Hj as [->|Hj]; [lia|inversion Hj].
  - rewrite ZTF_first_by_id in Hm by (auto; now inversion Hsl).
    specialize (Hmin y eq_refl).
    destruct (Z.leb_spec (Instrument.id x) (Instrument.id y));
      simpl in Hm; injection Hm as <-.
    + destruct Hj as [->|Hj]; [lia|]. specialize (Hmin j Hj). lia.
    + destruct Hj as [->|Hj]; [lia|]. now apply Hmin.
Qed.

Lemma orderedInstrumentList_head_least (l : list Instrument.t) :
  Forall (fun i => ~ named_ZTF i) l ->
  forall m, head (orderedInstrumentList l) = Some m ->
  forall j, j ∈ l -> Instrument.id m <= Instrument.id j.
Proof.
  unfold orderedInstrumentList. intros Hl m Hm j Hj.
  apply (Array_sort_elem ZTF_first) in Hj. revert m Hm j Hj.
  induction l as [|x l IH]; simpl.
  - discriminate.
  - inversion Hl; subst. apply sort_insert_head_least; auto.
    apply Forall_forall. intros i Hi.
    apply Array_sort_elem in Hi. rewrite Forall_forall in H2. auto.
Qed.

Lemma orderedInstrumentList_head (l : list Instrument.t) :
  l <> [] -> exists i, head (orderedInstrumentList l) = Some i /\ i ∈ l.
Proof.
  intros Hl. unfold orderedInstrumentList.
  destruct (Array_sort ZTF_first l) as [|i sl] eqn:E.
  - apply (f_equal length) in E. rewrite Array_sort_length in E.
    destruct l; [contradiction|discriminate].
  - exists i. split; [reflexivity|].
    apply (Array_sort_elem ZTF_first). rewrite E. left.
Qed.

Lemma first_id_head {B : Type} (f : B -> Z) (l : list B) (x : B) :
  head l = Some x -> first_id f l = SelId (f x).
Proof. destruct l; simpl; [discriminate|]. now intros [= ->]. Qed.

End DefaultsFacts.

Section DefaultsClaim.
Import JS GcnSelectionForm Samples.

(** Whatever list a sort returns, if its first entry compares at most 0
    with every later one, a ZTF anywhere in it means a ZTF in front. *)
Lemma front_is_ZTF (i : Instrument.t) (rest : list Instrument.t) :
  (forall j, j ∈ rest -> ZTF_first i j <= 0) ->
  Exists named_ZTF (i :: rest) -> named_ZTF i.
Proof.
  intros Hfront H. destruct (named_ZTF_dec i) as [|Hi]; [assumption|].
  apply Exists_exists in H as (z & Hz & HZ).
  apply elem_of_cons in Hz as [->|Hz]; [assumption|].
  specialize (Hfront z Hz). rewrite (ZTF_first_r _ _ Hi HZ) in Hfront. lia.
Qed.

(** C3: for a non-empty instrument list, [setDefaults] selects an
    instrument of the list; it is one called "ZTF" when the list has one
    (the one called "ZTF" when only one is, wherever it stands in the list),
    and one of least id when none is called "ZTF". The selected localization
    is the first of the list, by id and by name. *)
Theorem setDefaults_selects (instrumentList : list Instrument.t)
    (localizations : list Localization.t) (s : state) :
  instrumentList <> [] ->
  let s' := setDefaults instrumentList localizations s in
  (exists i, i ∈ instrumentList
     /\ selectedInstrumentId s' = SelId (Instrument.id i)
     /\ (Exists named_ZTF instrumentList -> named_ZTF i)
     /\ (Forall (fun j => ~ named_ZTF j) instrumentList ->
         forall j, j ∈ instrumentList -> Instrument.id i <= Instrument.id j))
  /\ (forall z, z ∈ instrumentList -> named_ZTF z ->
      (forall j, j ∈ instrumentList -> named_ZTF j -> j = z) ->
      selectedInstrumentId s' = SelId (Instrument.id z))
  /\ (forall loc rest, localizations = loc :: rest ->
      selectedLocalizationId s' = SelId (Localization.id loc)
      /\ selectedLocalizationName s' = Def (Localization.localization_name loc)).
Proof.
  intros Hne s'.
  destruct (orderedInstrumentList_head instrumentList Hne) as (i & Hi & Hin).
  assert (Hsel : selectedInstrumentId s' = SelId (Instrument.id i)).
  { subst s'. unfold setDefaults. simpl. now apply first_id_head. }
  assert (HZ : Exists named_ZTF instrumentList -> named_ZTF i).
  { intros HE. apply orderedInstrumentList_head_ZTF in HE as (z & Hz & HzZ).
    congruence. }
  split; [|split].
  - exists i. repeat split; try assumption.
    intros Hall j Hj.
    now apply (orderedInstrumentList_head_least instrumentList Hall i Hi).
  - intros z Hz HzZ Huniq. rewrite Hsel. f_equal. f_equal.
    apply Huniq; [assumption|]. apply HZ. apply Exists_exists. eauto.
  - intros loc rest ->. subst s'. split; reflexivity.
Qed.

Lemma setDefaults_selects_witness :
  let s' := setDefaults [WINTER; DECam; ZTF] [bayestar; bilby] (initial Null) in
  (exists i, i ∈ [WINTER; DECam; ZTF]
     /\ selectedInstrumentId s' = SelId (Instrument.id i)
     /\ (Exists named_ZTF [WINTER; DECam; ZTF] -> named_ZTF i)
     /\ (Forall (fun j => ~ named_ZTF j) [WINTER; DECam; ZTF] ->
         forall j, j ∈ [WINTER; DECam; ZTF] -> Instrument.id i <= Instrument.id j))
  /\ (forall z, z ∈ [WINTER; DECam; ZTF] -> named_ZTF z ->
      (forall j, j ∈ [WINTER; DECam; ZTF] -> named_ZTF j -> j = z) ->
      selectedInstrumentId s' = SelId (Instrument.id z))
  /\ (forall loc rest, [bayestar; bilby] = loc :: rest ->
      selectedLocalizationId s' = SelId (Localization.id loc)
      /\ selectedLocalizationName s' = Def (Localization.localization_name loc)).
Proof.
  apply (setDefaults_selects [WINTER; DECam; ZTF] [bayestar; bilby] (initial Null)).
  discriminate.
Defined.

Example setDefaults_sample :
  setDefaults [WINTER; DECam; ZTF] [bayestar; bilby] (initial Null)
  = setSelectedLocalizationName (Def "bayestar.fits.gz")
      (setSelectedLocalizationId (SelId 11)
         (setSelectedInstrumentId (SelId 2) (initial Null))).
Proof. reflexivity. Qed.

Example setDefaults_sample_no_ZTF :
  selectedInstrumentId (setDefaults [WINTER; DECam] [bilby] (initial Null)) = SelId 1.
Proof. reflexivity. Qed.

(** The effect applies the defaults exactly when the loaded event is the
    requested one and both reference lists are non-empty. *)
Lemma defaults_effect_runs (dateobs : string) (ev : GcnEvent.t)
    (instrumentList : list Instrument.t) (locs : list Localization.t) (s : state) :
  GcnEvent.dateobs ev = dateobs -> dateobs <> "" ->
  GcnEvent.localizations ev = Def locs ->
  instrumentList <> [] -> locs <> [] ->
  defaults_effect dateobs (Def ev) instrumentList s
  = setDefaults instrumentList locs s.
Proof.
  intros Hd Hne Hl Hi Hlocs. unfold defaults_effect. rewrite Hl, Hd.
  rewrite String.eqb_refl.
  destruct (String.eqb_spec dateobs ""); [contradiction|].
  destruct instrumentList; [contradiction|]. destruct locs; [contradiction|].
  reflexivity.
Qed.

Lemma defaults_effect_skips_empty (dateobs : string) (gcnEvent : nullable GcnEvent.t)
    (s : state) :
  defaults_effect dateobs gcnEvent [] s = s.
Proof.
  unfold defaults_effect. destruct gcnEvent as [| |ev]; try reflexivity.
  destruct (GcnEvent.localizations ev); try reflexivity.
  simpl. now rewrite andb_false_r.
Qed.

End DefaultsClaim.

(** ** Result panes *)

Section PaneFacts.
Import JS GcnSelectionForm Samples.

Lemma galaxies_pane_states (gcnEventGalaxies : nullable Galaxies.t) :
  rendered_states "Fetching galaxies..." (galaxies_pane gcnEventGalaxies)
  = [collection_state (opt_chain gcnEventGalaxies Galaxies.galaxies)].
Proof.
  destruct gcnEventGalaxies as [| |[[| |[|g rows]] total]]; reflexivity.
Qed.

Lemma observations_pane_states (gcnEventObservations : nullable Observations.t) :
  rendered_states "Fetching observations..." (observations_pane gcnEventObservations)
  = [collection_state (opt_chain gcnEventObservations Observations.observations)].
Proof.
  destruct gcnEventObservations as [| |[[| |[|o rows]] total]]; reflexivity.
Qed.

Lemma sources_pane_states (gcnEventSources : nullable Sources.t) (s : state) :
  rendered_states "Fetching sources..." (sources_pane gcnEventSources s)
  = match collection_state (opt_chain gcnEventSources Sources.sources) with
    | Populated => if str_truthy (selectedLocalizationName s) then [Populated] else []
    | st => [st]
    end.
Proof.
  destruct gcnEventSources as [| |[[| |[|r rows]] page total per]]; try reflexivity.
  unfold sources_pane; simpl.
  destruct (str_truthy (selectedLocalizationName s)); reflexivity.
Qed.

(** C4, as the code has it: the galaxies pane and the observations pane
    show exactly the one state their collection calls for ("fetching" for
    an absent collection, "None" for an empty one, the table otherwise); the
    sources pane does the same, except that for a non-empty collection it
    shows the table only if a localization name is set, and nothing
    otherwise. *)
Theorem panes_render_one_state (gcnEventSources : nullable Sources.t)
    (gcnEventGalaxies : nullable Galaxies.t)
    (gcnEventObservations : nullable Observations.t) (s : state) :
  rendered_states "Fetching galaxies..." (galaxies_pane gcnEventGalaxies)
  = [collection_state (opt_chain gcnEventGalaxies Galaxies.galaxies)]
  /\ rendered_states "Fetching observations..." (observations_pane gcnEventObservations)
     = [collection_state (opt_chain gcnEventObservations Observations.observations)]
  /\ rendered_states "Fetching sources..." (sources_pane gcnEventSources s)
     = match collection_state (opt_chain gcnEventSources Sources.sources) with
       | Populated =>
           if str_truthy (selectedLocalizationName s) then [Populated] else []
       | st => [st]
       end.
Proof.
  split; [apply galaxies_pane_states|].
  split; [apply observations_pane_states|apply sources_pane_states].
Qed.

(** C4 as stated fails for the sources pane: with one source found and no
    localization name, the pane shows none of the three states. *)
Lemma sources_pane_state_counterexample :
  collection_state (opt_chain found_one Sources.sources) = Populated
  /\ sources_pane found_one (initial Undefined) = Div [Div [Div []]]
  /\ rendered_states "Fetching sources..." (sources_pane found_one (initial Undefined))
     <> [collection_state (opt_chain found_one Sources.sources)].
Proof. repeat split. vm_compute. discriminate. Qed.

Lemma sources_pane_shows_table_inv (gcnEventSources : nullable Sources.t) (s : state) :
  shows_table (sources_pane gcnEventSources s) = true ->
  str_truthy (selectedLocalizationName s) = true.
Proof.
  destruct gcnEventSources as [| |[[| |[|r rows]] page total per]];
    try discriminate.
  unfold sources_pane; simpl.
  destruct (str_truthy (selectedLocalizationName s)); [reflexivity|discriminate].
Qed.

(** C8: the sources pane shows a table only if the localization name is
    set (a non-empty string); and for every non-empty sources collection
    with the name absent (undefined, null or the empty string) the pane is
    an empty container, with nothing to show. *)
Theorem sources_pane_needs_name (gcnEventSources : nullable Sources.t) (s : state) :
  (shows_table (sources_pane gcnEventSources s) = true ->
   str_truthy (selectedLocalizationName s) = true)
  /\ (collection_state (opt_chain gcnEventSources Sources.sources) = Populated ->
      str_truthy (selectedLocalizationName s) = false ->
      sources_pane gcnEventSources s = Div [Div [Div []]]
      /\ visible_leaves (sources_pane gcnEventSources s) = 0%nat).
Proof.
  split; [apply sources_pane_shows_table_inv|].
  intros Hc Hn.
  destruct gcnEventSources as [| |[[| |[|r rows]] page total per]];
    try discriminate.
  unfold sources_pane; simpl. rewrite Hn. split; reflexivity.
Qed.

Lemma sources_pane_needs_name_witness :
  (collection_state (opt_chain found_one Sources.sources) = Populated
   /\ str_truthy (selectedLocalizationName (initial (Def ""))) = false)
  /\ sources_pane found_one (initial (Def "")) = Div [Div [Div []]]
  /\ shows_table (sources_pane found_one (initial (Def "bayestar.fits.gz"))) = true
  /\ str_truthy (selectedLocalizationName (initial (Def "bayestar.fits.gz"))) = true.
Proof.
  split; [split; reflexivity|].
  split.
  - apply (sources_pane_needs_name found_one (initial (Def ""))); reflexivity.
  - split; [reflexivity|].
    apply (sources_pane_needs_name found_one (initial (Def "bayestar.fits.gz"))).
    reflexivity.
Defined.

Lemma results_tabs_sources (gcnEventSources : nullable Sources.t)
    (gcnEventGalaxies : nullable Galaxies.t)
    (gcnEventObservations : nullable Observations.t) (s : state) :
  tabIndex s = 2 ->
  results_tabs gcnEventSources gcnEventGalaxies gcnEventObservations s
  = [sources_pane gcnEventSources s].
Proof. unfold results_tabs. intros ->. reflexivity. Qed.

End PaneFacts.

(** ** Treasure Map buttons *)

Section TreasureMapFacts.
Import JS GcnSelectionForm.

Lemma step_flag_in_flight (w : world) (e : event) :
  flag_in_flight w -> flag_in_flight (step w e).
Proof.
  unfold flag_in_flight. intros H. destruct e; simpl.
  - assumption.
  - destruct (is_button _); [|assumption]. right. simpl. left.
  - case_bool_decide; [|assumption]. left. reflexivity.
  - destruct (is_button _); assumption.
  - case_bool_decide; assumption.
Qed.

Lemma run_flag_in_flight (events : list event) (w : world) :
  flag_in_flight w -> flag_in_flight (run events w).
Proof.
  unfold run. revert w.
  induction events as [|e events IH]; intros w H; simpl; [assumption|].
  apply IH, step_flag_in_flight, H.
Qed.

Lemma start_flag_in_flight (name : nullable string) : flag_in_flight (start name).
Proof. left. reflexivity. Qed.

(** The control of the selected instrument is a progress indicator exactly
    when the flag holds that very instrument. *)
Lemma submit_control_button (s : state) :
  isSubmittingTreasureMap s <> selectedInstrumentId s ->
  submit_control s
  = Button "Send to Treasure Map" ("treasuremapRequest_", selectedInstrumentId s).
Proof.
  intros H. unfold submit_control, sel_strict_eq.
  case_bool_decide; [contradiction|reflexivity].
Qed.

Lemma submit_control_progress (s : state) :
  isSubmittingTreasureMap s = selectedInstrumentId s ->
  submit_control s = Div [CircularProgress].
Proof.
  intros H. unfold submit_control, sel_strict_eq.
  case_bool_decide; [reflexivity|contradiction].
Qed.

(** C6: at any point of a run of the component, with a submission for
    instrument B in flight and a different instrument A selected, the
    submit control of A is the button, not the progress indicator, both
    when the flag holds B and whenever A has no submission of its own in
    flight. *)
Theorem other_instrument_stays_operable (name : nullable string)
    (events : list event) (A B : Z) :
  let w := run events (start name) in
  A <> B ->
  SelId B ∈ submitting w ->
  selectedInstrumentId (ui w) = SelId A ->
  (isSubmittingTreasureMap (ui w) = SelId B ->
   submit_control (ui w)
   = Button "Send to Treasure Map" ("treasuremapRequest_", SelId A))
  /\ (SelId A ∉ submitting w ->
      submit_control (ui w)
      = Button "Send to Treasure Map" ("treasuremapRequest_", SelId A)).
Proof.
  intros w HAB HB HA.
  pose proof (run_flag_in_flight events (start name) (start_flag_in_flight name))
    as Hinv.
  fold w in Hinv. split.
  - intros Hflag. rewrite <- HA. apply submit_control_button.
    rewrite Hflag, HA. congruence.
  - intros HnA. rewrite <- HA. apply submit_control_button.
    rewrite HA. destruct Hinv as [Hnull|Hin].
    + rewrite Hnull. discriminate.
    + intros Heq. rewrite Heq in Hin. contradiction.
Qed.

Lemma other_instrument_stays_operable_witness :
  let w := run [SelectInstrument (SelId 2); ClickSendToTreasureMap;
                SelectInstrument (SelId 1)] (start Null) in
  (1 <> 2 /\ SelId 2 ∈ submitting w /\ selectedInstrumentId (ui w) = SelId 1
   /\ isSubmittingTreasureMap (ui w) = SelId 2)
  /\ submit_control (ui w)
     = Button "Send to Treasure Map" ("treasuremapRequest_", SelId 1).
Proof.
  split.
  - split; [lia|]. split; [left|]. split; reflexivity.
  - refine (proj1 (other_instrument_stays_operable Null
                     [SelectInstrument (SelId 2); ClickSendToTreasureMap;
                      SelectInstrument (SelId 1)] 1 2 _ _ _) _);
      [lia|left|reflexivity|reflexivity].
Defined.

(** The instrument whose own submission has just been sent shows the
    progress indicator. *)
Example own_submission_shows_progress :
  submit_control
    (ui (run [SelectInstrument (SelId 2); ClickSendToTreasureMap] (start Null)))
  = Div [CircularProgress].
Proof. reflexivity. Qed.

End TreasureMapFacts.

(** ** Lookup tables and the sky-map overlay fetch *)

Section LookUpFacts.
Import JS.

Context {A : Type} (id : A -> Z).

Lemma lookUp_fold_Some (l : list A) (table : gmap Z A) (z : Z) (x : A) :
  foldl (fun t y => <[id y := y]> t) table l !! z = Some x ->
  (x ∈ l /\ id x = z) \/ table !! z = Some x.
Proof.
  revert table. induction l as [|y l IH]; intros table; simpl; [auto|].
  intros H. apply IH in H as [[Hin Hid]|H].
  - left. split; [now right|assumption].
  - destruct (decide (id y = z)) as [<-|Hne].
    + rewrite lookup_insert_eq in H. injection H as <-. left. split; [left|reflexivity].
    + rewrite lookup_insert_ne in H by assumption. now right.
Qed.

Lemma lookUp_fold_is_Some (l : list A) (table : gmap Z A) (z : Z) :
  (exists x, x ∈ l /\ id x = z) \/ is_Some (table !! z) ->
  is_Some (foldl (fun t y => <[id y := y]> t) table l !! z).
Proof.
  revert table. induction l as [|y l IH]; intros table; simpl.
  - intros [(x & Hx & _)|H]; [inversion Hx|assumption].
  - intros H. apply IH.
    destruct (decide (id y = z)) as [<-|Hne].
    + right. rewrite lookup_insert_eq. eauto.
    + rewrite lookup_insert_ne by assumption.
      destruct H as [(x & Hx & Hid)|H]; [|now right].
      apply elem_of_cons in Hx as [->|Hx]; [contradiction|].
      left. eauto.
Qed.

(** An entry of the table is an element of the list, filed under its id. *)
Lemma lookUp_Some (l : list A) (z : Z) (x : A) :
  lookUp id l !! z = Some x -> x ∈ l /\ id x = z.
Proof.
  unfold lookUp. intros H. apply lookUp_fold_Some in H as [H|H]; [assumption|].
  rewrite lookup_empty in H. discriminate.
Qed.

(** An id is in the table exactly when the list has an element with it. *)
Lemma lookUp_is_Some (l : list A) (z : Z) :
  is_Some (lookUp id l !! z) <-> exists x, x ∈ l /\ id x = z.
Proof.
  split.
  - intros [x Hx]. exists x. now apply lookUp_Some.
  - intros H. unfold lookUp. apply lookUp_fold_is_Some. now left.
Qed.

Lemma keys_include_spec (table : gmap Z A) (k : selection) :
  keys_include table k = true <-> is_Some (index table k).
Proof.
  destruct k as [| |z]; simpl; try (split; [discriminate|intros [? ?]; discriminate]).
  rewrite bool_decide_eq_true. unfold Object_keys.
  rewrite list_elem_of_fmap. split.
  - intros ([z' x] & -> & Hin). apply elem_of_map_to_list in Hin. simpl. eauto.
  - intros [x Hx]. exists (z, x). split; [reflexivity|].
    now apply elem_of_map_to_list.
Qed.

End LookUpFacts.

Section SkymapFacts.
Import JS GcnSelectionForm Samples.

Lemma isSome_spec {B : Type} (o : option B) : isSome o = true <-> is_Some o.
Proof.
  destruct o; simpl; split; eauto; try discriminate.
  intros [? ?]; discriminate.
Qed.

(** A selection resolves against a table when it is an id filed there. *)
Lemma instLookUp_resolves (instrumentList : list Instrument.t) (k : selection) :
  is_Some (index (instLookUp instrumentList) k)
  <-> exists z i, k = SelId z /\ i ∈ instrumentList /\ Instrument.id i = z.
Proof.
  unfold instLookUp, sortedInstrumentList. destruct k as [| |z]; simpl.
  - split; [intros [? ?]; discriminate|intros (? & ? & ? & _); discriminate].
  - split; [intros [? ?]; discriminate|intros (? & ? & ? & _); discriminate].
  - rewrite lookUp_is_Some. split.
    + intros (i & Hi & Hid). apply Array_sort_elem in Hi. eauto.
    + intros (z' & i & [= <-] & Hi & Hid). exists i.
      split; [now apply Array_sort_elem|assumption].
Qed.

Lemma locLookUp_resolves (gcnEvent : nullable GcnEvent.t) (k : selection) :
  is_Some (index (locLookUp gcnEvent) k)
  <-> exists z locs loc,
        k = SelId z /\ event_localizations gcnEvent = Def locs
        /\ loc ∈ locs /\ Localization.id loc = z.
Proof.
  unfold locLookUp.
  destruct (event_localizations gcnEvent) as [| |locs]; destruct k as [| |z]; simpl;
    try (split; [intros [? H];
                 first [discriminate H|rewrite lookup_empty in H; discriminate H]
                |intros (? & ? & ? & H1 & H2 & _);
                 first [discriminate H1|discriminate H2]]).
  rewrite lookUp_is_Some. split.
  - intros (loc & Hloc & Hid). exists z, locs, loc. auto.
  - intros (z' & locs' & loc & [= <-] & [= <-] & Hloc & Hid). eauto.
Qed.

(** The guard of the effect, read on the two tables. *)
Lemma skymap_fetch_guard (instrumentList : list Instrument.t)
    (gcnEvent : nullable GcnEvent.t) (s : state) :
  (is_Some (fetchSkymapInstrument_effect instrumentList gcnEvent s)
   <-> is_Some (index (instLookUp instrumentList) (selectedInstrumentId s))
       /\ is_Some (index (locLookUp gcnEvent) (selectedLocalizationId s)))
  /\ (forall request,
      fetchSkymapInstrument_effect instrumentList gcnEvent s = Some request ->
      exists a b loc,
        selectedInstrumentId s = SelId a /\ selectedLocalizationId s = SelId b
        /\ locLookUp gcnEvent !! b = Some loc
        /\ request = {| request_instrument_id := Def a;
                        request_localization := Def loc |})
  /\ (index (instLookUp instrumentList) (selectedInstrumentId s) = None
      \/ index (locLookUp gcnEvent) (selectedLocalizationId s) = None ->
      fetchSkymapInstrument_effect instrumentList gcnEvent s = None).
Proof.
  unfold fetchSkymapInstrument_effect.
  destruct (isSome (index (instLookUp instrumentList) (selectedInstrumentId s)))
    eqn:Hi;
  destruct (keys_include (locLookUp gcnEvent) (selectedLocalizationId s)) eqn:Hl;
    simpl.
  - apply isSome_spec in Hi. apply keys_include_spec in Hl.
    split; [split; eauto|]. split.
    + intros request [= <-].
      destruct Hi as [i Hi]. destruct Hl as [loc Hl].
      destruct (selectedInstrumentId s) as [| |a]; try discriminate.
      destruct (selectedLocalizationId s) as [| |b]; try discriminate.
      simpl in *. exists a, b, loc. rewrite Hi, Hl. simpl.
      apply lookUp_Some in Hi as [_ ->]. auto.
    + intros [H|H]; rewrite H in *; [destruct Hi|destruct Hl]; discriminate.
  - split; [|split; [discriminate|reflexivity]].
    split; [intros [? ?]; discriminate|].
    intros [_ H]. apply keys_include_spec in H. congruence.
  - split; [|split; [discriminate|reflexivity]].
    split; [intros [? ?]; discriminate|].
    intros [H _]. apply isSome_spec in H. congruence.
  - split; [|split; [discriminate|reflexivity]].
    split; [intros [? ?]; discriminate|].
    intros [H _]. apply isSome_spec in H. congruence.
Qed.

(** C9: the effect that follows every change of the selected instrument or
    localization dispatches the overlay fetch if and only if the selected
    instrument id is the id of an instrument of the loaded instrument list
    and the selected localization id is the id of a localization of the
    loaded event, which is the same as both ids being in the lookup tables
    built from these lists on the same render. The fetch then carries that
    instrument id and a localization of the event with that localization
    id. With either id unresolved (a null or undefined selection, an id no
    loaded instrument has, an id no localization of the event has, no event
    or no localization list loaded) nothing is dispatched. *)
Theorem skymap_fetch_iff_resolved (instrumentList : list Instrument.t)
    (gcnEvent : nullable GcnEvent.t) (s : state) :
  (is_Some (fetchSkymapInstrument_effect instrumentList gcnEvent s)
   <-> (exists a i, selectedInstrumentId s = SelId a
                    /\ i ∈ instrumentList /\ Instrument.id i = a)
       /\ (exists b locs loc,
             selectedLocalizationId s = SelId b
             /\ event_localizations gcnEvent = Def locs
             /\ loc ∈ locs /\ Localization.id loc = b))
  /\ (is_Some (fetchSkymapInstrument_effect instrumentList gcnEvent s)
      <-> is_Some (index (instLookUp instrumentList) (selectedInstrumentId s))
          /\ is_Some (index (locLookUp gcnEvent) (selectedLocalizationId s)))
  /\ (forall request,
      fetchSkymapInstrument_effect instrumentList gcnEvent s = Some request ->
      exists a b locs loc,
        selectedInstrumentId s = SelId a /\ selectedLocalizationId s = SelId b
        /\ (exists i, i ∈ instrumentList /\ Instrument.id i = a)
        /\ event_localizations gcnEvent = Def locs
        /\ loc ∈ locs /\ Localization.id loc = b
        /\ locLookUp gcnEvent !! b = Some loc
        /\ request = {| request_instrument_id := Def a;
                        request_localization := Def loc |})
  /\ ((forall i, i ∈ instrumentList ->
               selectedInstrumentId s <> SelId (Instrument.id i))
      \/ (forall locs loc, event_localizations gcnEvent = Def locs -> loc ∈ locs ->
                           selectedLocalizationId s <> SelId (Localization.id loc)) ->
      fetchSkymapInstrument_effect instrumentList gcnEvent s = None)
  /\ (index (instLookUp instrumentList) (selectedInstrumentId s) = None
      \/ index (locLookUp gcnEvent) (selectedLocalizationId s) = None ->
      fetchSkymapInstrument_effect instrumentList gcnEvent s = None).
Proof.
  destruct (skymap_fetch_guard instrumentList gcnEvent s) as (Hiff & Hreq & Hnone).
  assert (Hlists :
    is_Some (fetchSkymapInstrument_effect instrumentList gcnEvent s)
    <-> (exists a i, selectedInstrumentId s = SelId a
                     /\ i ∈ instrumentList /\ Instrument.id i = a)
        /\ (exists b locs loc,
              selectedLocalizationId s = SelId b
              /\ event_localizations gcnEvent = Def locs
              /\ loc ∈ locs /\ Localization.id loc = b)).
  { rewrite Hiff, instLookUp_resolves, locLookUp_resolves. reflexivity. }
  split; [exact Hlists|]. split; [exact Hiff|]. split; [|split; [|exact Hnone]].
  - intros request Hr.
    destruct (Hreq request Hr) as (a & b & loc & Ha & Hb & Hloc & ->).
    assert (Hsome : is_Some (fetchSkymapInstrument_effect instrumentList gcnEvent s))
      by (rewrite Hr; eauto).
    apply Hlists in Hsome as [(a' & i & Ha' & Hi & Hid) (b' & locs & _ & Hb' & Hl & _)].
    rewrite Ha in Ha'. injection Ha' as <-.
    exists a, b, locs, loc. repeat split; eauto.
    + unfold locLookUp in Hloc. rewrite Hl in Hloc.
      now apply lookUp_Some in Hloc as [? _].
    + unfold locLookUp in Hloc. rewrite Hl in Hloc.
      now apply lookUp_Some in Hloc as [_ ?].
  - intros Hun.
    destruct (fetchSkymapInstrument_effect instrumentList gcnEvent s) as [request|]
      eqn:E; [|reflexivity].
    exfalso.
    assert (Hsome : is_Some (Some request)) by eauto.
    apply Hlists in Hsome as [(a & i & Ha & Hi & Hid) (b & locs & loc & Hb & Hl & Hloc & Hlid)].
    destruct Hun as [Hun|Hun].
    + apply (Hun i Hi). now rewrite Ha, Hid.
    + apply (Hun locs loc Hl Hloc). now rewrite Hb, Hlid.
Qed.

Lemma skymap_fetch_iff_resolved_witness :
  is_Some
    (fetchSkymapInstrument_effect [WINTER; DECam; ZTF] (Def S230501)
       (setSelectedLocalizationId (SelId 7)
          (setSelectedInstrumentId (SelId 2) (initial Null))))
  /\ fetchSkymapInstrument_effect [WINTER; DECam; ZTF] (Def S230501)
       (setSelectedLocalizationId (SelId 42)
          (setSelectedInstrumentId (SelId 2) (initial Null)))
     = None
  /\ fetchSkymapInstrument_effect [] (Def S230501)
       (setSelectedLocalizationId (SelId 7)
          (setSelectedInstrumentId (SelId 2) (initial Null)))
     = None.
Proof.
  split; [|split].
  - refine (proj2 (proj1 (skymap_fetch_iff_resolved [WINTER; DECam; ZTF]
                             (Def S230501) _)) _).
    split.
    + exists 2, ZTF. split; [reflexivity|]. split; [right; right; left|reflexivity].
    + exists 7, [bayestar; bilby], bilby.
      split; [reflexivity|]. split; [reflexivity|].
      split; [right; left|reflexivity].
  - refine (proj1 (proj2 (proj2 (proj2
              (skymap_fetch_iff_resolved [WINTER; DECam; ZTF] (Def S230501) _)))) _).
    right. intros locs loc [= <-] Hloc.
    apply list_elem_of_In in Hloc. simpl in Hloc.
    destruct Hloc as [<-|[<-|[]]]; discriminate.
  - refine (proj1 (proj2 (proj2 (proj2
              (skymap_fetch_iff_resolved [] (Def S230501) _)))) _).
    left. intros i Hi. inversion Hi.
Defined.

Example skymap_fetch_sample :
  fetchSkymapInstrument_effect [WINTER; DECam; ZTF] (Def S230501)
    (setDefaults [WINTER; DECam; ZTF] [bayestar; bilby] (initial Null))
  = Some {| request_instrument_id := Def 2; request_localization := Def bayestar |}.
Proof. reflexivity. Qed.

Example skymap_fetch_initially_skipped :
  fetchSkymapInstrument_effect [WINTER; DECam; ZTF] (Def S230501) (initial Null) = None.
Proof. reflexivity. Qed.

End SkymapFacts.

(** ** The API trigger selector *)

Section TriggerSelectorFacts.
Import JS SkymapTriggerAPIDisplay Samples.

(** C5, as the code has it: choosing "Clear Selection" (the entry with id
    -1) in the event select always succeeds, empties the event field and
    the localization field of the form, records -1 as the selected event,
    and leaves the trigger list and the selected trigger name as they
    were. *)
Theorem clear_selection_resets_form (gcnEvents : nullable (list GcnEvent.t))
    (s : state) :
  gcnEvent_onChange gcnEvents (-1) s
  = Normal {| selectedAllocationId := selectedAllocationId s;
              triggerList := triggerList s;
              selectedTriggerName := selectedTriggerName s;
              selectedGcnEventId := SelId (-1);
              formValues := <["localizationid" := PStr ""]>
                              (<["gcneventid" := PStr ""]> (formValues s)) |}
  /\ (<["localizationid" := PStr ""]> (<["gcneventid" := PStr ""]> (formValues s)))
       !! "localizationid" = Some (PStr "")
  /\ (<["localizationid" := PStr ""]> (<["gcneventid" := PStr ""]> (formValues s)))
       !! "gcneventid" = Some (PStr "").
Proof.
  split; [reflexivity|]. split.
  - apply lookup_insert_eq.
  - rewrite lookup_insert_ne by discriminate. apply lookup_insert_eq.
Qed.

(** C5 as stated fails on the trigger name: after a catalog with two names
    has arrived, clearing the event selection empties the localization
    field but the selected trigger name is still the first catalog name,
    neither empty nor the "None" entry. *)
Lemma clear_selection_keeps_trigger_counterexample :
  (let! s' := gcnEvent_onChange (Def [S230501]) (-1) after_catalog in
   Normal (formValues s' !! "localizationid", selectedTriggerName s', triggerList s'))
  = Normal (Some (PStr ""), Def "ZTF_S230501_1", ["ZTF_S230501_1"; "ZTF_S230501_2"])
  /\ str_truthy (Def "ZTF_S230501_1") = true
  /\ Def "ZTF_S230501_1" <> Def "None".
Proof. split; [vm_compute; reflexivity|]. split; [reflexivity|discriminate]. Qed.

(** Choosing an event fills the localization field with the id of the
    event's first localization. *)
Example choose_event_sample :
  (let! s' := gcnEvent_onChange (Def [S230501]) 41 initial in
   Normal (formValues s' !! "gcneventid", formValues s' !! "localizationid",
           selectedGcnEventId s'))
  = Normal (Some (num 41), Some (num 11), SelId 41).
Proof. vm_compute. reflexivity. Qed.

Lemma first_trigger_elem (names : list string) :
  names <> [] -> exists n, first_trigger names = Def n /\ n ∈ names.
Proof.
  destruct names as [|n names]; [contradiction|].
  intros _. exists n. split; [reflexivity|left].
Qed.

Lemma getTriggers_settled_in_list (r : nullable response) (s : state) :
  exists n, selectedTriggerName (getTriggers_settled r s) = Def n
            /\ n ∈ triggerList (getTriggers_settled r s).
Proof.
  unfold getTriggers_settled.
  destruct (opt_chain (opt_chain r data) trigger_names) as [| |[|n names]]; simpl;
    first [exists "None"; split; [reflexivity|left]
          |exists n; split; [reflexivity|left]].
Qed.

(** C10: once a trigger-catalog request has returned, the selected trigger
    name is an element of the trigger list; a reply with a non-empty list of
    names makes that list the trigger list and selects its first name; any
    other reply (no reply object, no data, no names, an empty list) makes the
    list ["None"] and selects "None". *)
Theorem getTriggers_selection_in_list (r : nullable response) (s : state) :
  let s' := getTriggers_settled r s in
  (exists n, selectedTriggerName s' = Def n /\ n ∈ triggerList s')
  /\ (forall n names,
      opt_chain (opt_chain r data) trigger_names = Def (n :: names) ->
      triggerList s' = n :: names /\ selectedTriggerName s' = Def n)
  /\ (opt_chain (opt_chain r data) trigger_names = Def []
      \/ present (opt_chain (opt_chain r data) trigger_names) = false ->
      triggerList s' = ["None"] /\ selectedTriggerName s' = Def "None").
Proof.
  intros s'. subst s'. split; [apply getTriggers_settled_in_list|].
  unfold getTriggers_settled.
  destruct (opt_chain (opt_chain r data) trigger_names) as [| |[|n names]]; simpl.
  - split; [discriminate|auto].
  - split; [discriminate|auto].
  - split; [discriminate|auto].
  - split; [intros ? ? [= <- <-]; auto|].
    intros [?|?]; discriminate.
Qed.

Lemma getTriggers_selection_in_list_witness :
  (opt_chain (opt_chain two_triggers data) trigger_names
   = Def ["ZTF_S230501_1"; "ZTF_S230501_2"])
  /\ triggerList (getTriggers_settled two_triggers initial)
     = ["ZTF_S230501_1"; "ZTF_S230501_2"]
  /\ selectedTriggerName (getTriggers_settled two_triggers initial)
     = Def "ZTF_S230501_1".
Proof.
  split; [reflexivity|].
  apply (getTriggers_selection_in_list two_triggers initial). reflexivity.
Defined.


End TriggerSelectorFacts.

(** ** The recent-events widget *)

Section RecentEventsFacts.
Import JS RecentGcnEvents Samples.

(** C7, as the code has it: the widget lists every event of the store, one
    item per event and none for an absent store, whatever the preference;
    the preference [maxNumEvents], "5" when none is stored, is only handed
    to the preferences dialog. *)
Theorem recent_events_listed_in_full (stored : nullable prefs)
    (gcnEvents : nullable (list recent_event)) :
  length (snd (render stored gcnEvents))
  = match gcnEvents with
    | Def events => length events
    | _ => 0%nat
    end
  /\ fst (render stored gcnEvents)
     = match stored with
       | Def p => maxNumEvents p
       | _ => PStr "5"
       end
  /\ count_of (maxNumEvents defaultPrefs) = Some 5%nat.
Proof.
  split; [|split].
  - destruct gcnEvents; simpl; try reflexivity. apply length_map.
  - destruct stored; reflexivity.
  - reflexivity.
Qed.

(** C7 as stated fails: with no stored preference the bound reads 5, and a
    store of six events is listed with six items. *)
Lemma recent_events_unbounded_counterexample :
  count_of (fst (render Undefined six_events)) = Some 5%nat
  /\ length (snd (render Undefined six_events)) = 6%nat
  /\ ~ (length (snd (render Undefined six_events)) <= 5)%nat.
Proof. split; [reflexivity|]. split; [reflexivity|]. simpl. lia. Qed.

End RecentEventsFacts.

(** ** Display toggles *)

Section DisplayOptionsFacts.
Import JS JSString GcnSelectionForm DisplayOptions Samples.

Lemma option_key_inj (p q : nat) :
  (p < 5)%nat -> option_key q = option_key p -> q = p.
Proof.
  intros Hp H.
  assert (Hcases : (p = 0 \/ p = 1 \/ p = 2 \/ p = 3 \/ p = 4)%nat) by lia.
  destruct Hcases as [->|[->|[->|[->| ->]]]];
    do 5 (destruct q as [|q]; [first [reflexivity|discriminate H]|]);
    discriminate H.
Qed.

Lemma handleOnChange_lookup (q : nat) (m : gmap string bool) (k : string) :
  handleOnChange q m !! k
  = if decide (option_key q = k) then Some (not_at m k) else m !! k.
Proof.
  unfold handleOnChange. case_decide as H.
  - subst k. apply lookup_insert_eq.
  - now apply lookup_insert_ne.
Qed.

Lemma clicks_snoc (positions : list nat) (q : nat) :
  clicks (positions ++ [q]) = handleOnChange q (clicks positions).
Proof. unfold clicks. now rewrite foldl_app. Qed.

Lemma default_lookup (p : nat) :
  (p < 5)%nat -> displayOptionsDefault !! option_key p = Some (Nat.eqb p 0).
Proof.
  intros Hp. do 5 (destruct p as [|p]; [reflexivity|]). lia.
Qed.

(** X1: after any series of clicks, a toggle shows its initial value (checked
    for "localization", unchecked for the others) if it was clicked an even
    number of times and the opposite if an odd number of times; clicks on
    other toggles do not matter. *)
Theorem clicks_parity (positions : list nat) (p : nat) :
  (p < 5)%nat ->
  clicks positions !! option_key p
  = Some (xorb (Nat.eqb p 0) (Nat.odd (count_occ Nat.eq_dec positions p))).
Proof.
  intros Hp. induction positions as [|q positions IH] using rev_ind.
  - simpl. rewrite xorb_false_r. now apply default_lookup.
  - rewrite clicks_snoc, handleOnChange_lookup, count_occ_app. simpl.
    case_decide as Hk.
    + apply option_key_inj in Hk; [|assumption]. subst q.
      destruct (Nat.eq_dec p p); [|contradiction].
      unfold not_at. rewrite IH. simpl.
      replace (count_occ Nat.eq_dec positions p + 1)%nat
        with (S (count_occ Nat.eq_dec positions p)) by lia.
      rewrite Nat.odd_succ, <- Nat.negb_odd.
      destruct (Nat.eqb p 0), (Nat.odd _); reflexivity.
    + destruct (Nat.eq_dec q p) as [->|]; [contradiction|].
      now rewrite Nat.add_0_r.
Qed.

Lemma clicks_parity_witness :
  clicks [1; 3; 1; 0]%nat !! option_key 1
  = Some (xorb (Nat.eqb 1 0) (Nat.odd (count_occ Nat.eq_dec [1; 3; 1; 0]%nat 1%nat))).
Proof. apply (clicks_parity [1; 3; 1; 0]%nat 1%nat). lia. Defined.

(** X2: clicking the same toggle twice in a row leaves the state as it was,
    provided the state has an entry for it. *)
Theorem handleOnChange_twice (position : nat) (m : gmap string bool) :
  is_Some (m !! option_key position) ->
  handleOnChange position (handleOnChange position m) = m.
Proof.
  intros [b Hb]. unfold handleOnChange, not_at.
  rewrite lookup_insert_eq, insert_insert_eq, Hb. simpl.
  rewrite negb_involutive. now apply insert_id.
Qed.

Lemma handleOnChange_twice_witness :
  handleOnChange 2 (handleOnChange 2 displayOptionsDefault) = displayOptionsDefault.
Proof. apply (handleOnChange_twice 2 displayOptionsDefault). now exists false. Defined.

(** X3: which toggles are disabled: "localization" without a non-empty list of
    localizations, "sources", "galaxies" and "observations" while their
    result store is absent, and "instrument" never, whatever the instrument
    list. *)
Theorem toggles_disabled (instrumentList : list Instrument.t)
    (gcnEvent : nullable GcnEvent.t) (gcnEventSources : nullable Sources.t)
    (gcnEventObservations : nullable Observations.t)
    (gcnEventGalaxies : nullable Galaxies.t) (checkedDisplayState : gmap string bool) :
  map (fun c => (label c, disabled c))
    (checkboxes checkedDisplayState
       (displayOptionsAvailable instrumentList gcnEvent gcnEventSources
          gcnEventObservations gcnEventGalaxies))
  = [("localization",
      match event_localizations gcnEvent with
      | Def (_ :: _) => false
      | _ => true
      end);
     ("sources", negb (present gcnEventSources));
     ("galaxies", negb (present gcnEventGalaxies));
     ("instrument", false);
     ("observations", negb (present gcnEventObservations))].
Proof.
  unfold displayOptionsAvailable.
  destruct (event_localizations gcnEvent) as [| |[|loc locs]];
    destruct gcnEventSources, gcnEventObservations, gcnEventGalaxies;
    vm_compute; reflexivity.
Qed.

End DisplayOptionsFacts.

(** ** Submission of the query form *)

Section QuerySubmitFacts.
Import JS JSString GcnSelectionForm QuerySubmit Samples.

Lemma objects_assign (a : nat) (k : string) (v : value) (st : form_store) :
  objects (assign a k v st) !!! a = <[k := v]> (objects st !!! a).
Proof. simpl. apply lookup_total_insert_eq. Qed.

Lemma get_insert_ne (o : gmap string value) (k k' : string) (v : value) :
  k <> k' -> get (<[k := v]> o) k' = get o k'.
Proof. intros H. unfold get. now rewrite lookup_insert_ne. Qed.


Lemma queryList_includes_insert (o : gmap string value) (k target : string) (v : value) :
  k <> "queryList" ->
  queryList_includes (<[k := v]> o) target = queryList_includes o target.
Proof. intros H. unfold queryList_includes. now rewrite get_insert_ne. Qed.

Lemma queryList_includes_prepared (gcnEvent : nullable GcnEvent.t) (k : selection)
    (o : gmap string value) (s1 s2 target : string) :
  queryList_includes (prepared gcnEvent k o s1 s2) target = queryList_includes o target.
Proof.
  unfold prepared. destruct (index _ _);
    now rewrite ?queryList_includes_insert by discriminate.
Qed.

Lemma queryList_includes_any (o : gmap string value) (t t' : string) (b : bool) :
  queryList_includes o t = Normal b ->
  queryList_includes o t' = Normal (wants o t').
Proof.
  unfold wants, queryList_includes.
  destruct (get o "queryList") as [[| | | |s]|items]; try discriminate; reflexivity.
Qed.

Lemma submittable_spec (o : gmap string value) :
  submittable o = true <->
  exists s1 s2 b, get o "startDate" = VPrim (PStr s1)
                  /\ get o "endDate" = VPrim (PStr s2)
                  /\ queryList_includes o "sources" = Normal b.
Proof.
  unfold submittable, queryList_includes. split.
  - destruct (get o "startDate") as [[| | | |s1]|]; try discriminate.
    destruct (get o "endDate") as [[| | | |s2]|]; try discriminate.
    destruct (get o "queryList") as [[| | | |s]|items]; try discriminate;
      intros _; do 3 eexists; repeat split; reflexivity.
  - intros (s1 & s2 & b & -> & -> & H).
    destruct (get o "queryList") as [[| | | |s]|items]; try discriminate; reflexivity.
Qed.

(** The run of [handleSubmit] on form data it can process, in closed
    form. *)
Lemma handleSubmit_run (gcnEvent : nullable GcnEvent.t) (a : nat) (st : form_store)
    (s1 s2 : string) (b : bool) :
  get (objects st !!! a) "startDate" = VPrim (PStr s1) ->
  get (objects st !!! a) "endDate" = VPrim (PStr s2) ->
  queryList_includes (objects st !!! a) "sources" = Normal b ->
  let p := prepared gcnEvent (selectedLocalizationId (ui st)) (objects st !!! a) s1 s2 in
  let final := <["includeGeoJSON" := VPrim (PBool true)]> p in
  handleSubmit gcnEvent a st
  = {| after :=
         setIsSubmitting false
           {| ui := ui (setIsSubmitting true st);
              objects := <[a := final]> (objects st);
              sourceFilteringState :=
                if wants (objects st !!! a) "sources" then a
                else sourceFilteringState st;
              formDataState := a |};
       dispatched :=
         (if wants (objects st !!! a) "sources"
          then [fetchGcnEventSources (event_dateobs gcnEvent) p] else [])
         ++ (if wants (objects st !!! a) "observations"
             then [fetchGcnEventObservations (event_dateobs gcnEvent) final] else [])
         ++ (if wants (objects st !!! a) "galaxies"
             then [fetchGcnEventGalaxies (event_dateobs gcnEvent) final] else []);
       completed := true |}.
Proof.
  intros H1 H2 H3 p final.
  pose proof (queryList_includes_any _ _ "sources" _ H3) as Hs.
  pose proof (queryList_includes_any _ _ "observations" _ H3) as Ho.
  pose proof (queryList_includes_any _ _ "galaxies" _ H3) as Hg.
  unfold handleSubmit. cbv zeta.
  set (st1 := setIsSubmitting true st).
  change (objects st1) with (objects st). rewrite H1. simpl strip_offset. cbv iota.
  rewrite lookup_total_insert_eq, get_insert_ne, H2 by discriminate.
  simpl strip_offset. cbv iota.
  change (ui (assign a "endDate" (VPrim (PStr (strip s2)))
                (assign a "startDate" (VPrim (PStr (strip s1))) st1)))
    with (ui st1).
  change (selectedLocalizationId (ui st1)) with (selectedLocalizationId (ui st)).
  assert (Hnamed :
    exists st3, (if keys_include (locLookUp gcnEvent) (selectedLocalizationId (ui st))
       then match index (locLookUp gcnEvent) (selectedLocalizationId (ui st)) with
            | Some loc =>
                Normal (assign a "localizationName"
                          (VPrim (PStr (Localization.localization_name loc)))
                          (assign a "endDate" (VPrim (PStr (strip s2)))
                             (assign a "startDate" (VPrim (PStr (strip s1))) st1)))
            | None => Throw_TypeError
            end
       else Normal (assign a "endDate" (VPrim (PStr (strip s2)))
                      (assign a "startDate" (VPrim (PStr (strip s1))) st1)))
      = Normal st3
      /\ ui st3 = ui st1
      /\ objects st3 = <[a := p]> (objects st)
      /\ sourceFilteringState st3 = sourceFilteringState st
      /\ formDataState st3 = formDataState st).
  { subst p. unfold prepared.
    destruct (keys_include _ _) eqn:K.
    - apply keys_include_spec in K as [loc Hloc]. rewrite Hloc.
      eexists. split; [reflexivity|]. simpl.
      rewrite !lookup_total_insert_eq, !insert_insert_eq. auto.
    - assert (index (locLookUp gcnEvent) (selectedLocalizationId (ui st)) = None)
        as ->.
      { destruct (index _ _) eqn:E; [|reflexivity].
        assert (keys_include (locLookUp gcnEvent) (selectedLocalizationId (ui st))
                = true) by (apply keys_include_spec; eauto).
        congruence. }
      eexists. split; [reflexivity|]. simpl.
      rewrite !lookup_total_insert_eq, !insert_insert_eq. auto. }
  destruct Hnamed as (st3 & -> & Hui & Hobj & Hsf & Hfd).
  assert (Hp : objects st3 !!! a = p) by (rewrite Hobj; apply lookup_total_insert_eq).
  rewrite Hp. subst p.
  rewrite queryList_includes_prepared, Hs.
  set (p := prepared gcnEvent (selectedLocalizationId (ui st)) (objects st !!! a) s1 s2)
    in *.
  set (st4 := if wants (objects st !!! a) "sources"
              then setSourceFilteringState a st3 else st3).
  assert (H4 : objects st4 = objects st3 /\ ui st4 = ui st3
               /\ formDataState st4 = formDataState st3
               /\ sourceFilteringState st4
                  = if wants (objects st !!! a) "sources" then a
                    else sourceFilteringState st).
  { subst st4. destruct (wants _ "sources"); simpl; auto. }
  destruct H4 as (Ho4 & Hu4 & Hf4 & Hs4).
  rewrite objects_assign, Ho4, Hp.
  rewrite !queryList_includes_insert by discriminate.
  subst p. rewrite !queryList_includes_prepared, Ho, Hg.
  cbv iota. f_equal.
  - unfold setIsSubmitting, setFormDataState, assign. simpl.
    rewrite Ho4, Hu4, Hs4, Hobj, Hui, lookup_total_insert_eq, insert_insert_eq.
    reflexivity.
  - destruct (wants _ "sources"), (wants _ "observations"), (wants _ "galaxies");
      reflexivity.
Qed.

End QuerySubmitFacts.

Section QuerySubmitClaims.
Import JS JSString GcnSelectionForm QuerySubmit Samples Samples2.

(** X4: for form data that can be submitted, [handleSubmit] runs to its end
    and dispatches the fetches for exactly the targets named in the query
    list, always in the order sources, observations, galaxies, each with the
    [dateobs] of the loaded event. *)
Theorem handleSubmit_dispatches (gcnEvent : nullable GcnEvent.t) (a : nat)
    (st : form_store) :
  submittable (objects st !!! a) = true ->
  let r := handleSubmit gcnEvent a st in
  completed r = true
  /\ map target_of (dispatched r)
     = List.filter (wants (objects st !!! a)) ["sources"; "observations"; "galaxies"]
  /\ Forall (fun call => dateobs_of call = event_dateobs gcnEvent) (dispatched r).
Proof.
  intros H r. apply submittable_spec in H as (s1 & s2 & b & H1 & H2 & H3).
  subst r. rewrite (handleSubmit_run gcnEvent a st s1 s2 b H1 H2 H3). simpl.
  split; [reflexivity|].
  destruct (wants _ "sources"), (wants _ "observations"), (wants _ "galaxies");
    simpl; (split; [reflexivity|repeat constructor]).
Qed.

Lemma handleSubmit_dispatches_witness :
  submittable (objects before_submit !!! 2%nat) = true
  /\ map target_of (dispatched (handleSubmit (Def S230501) 2 before_submit))
     = ["sources"; "galaxies"].
Proof.
  split; [reflexivity|].
  refine (proj1 (proj2 (handleSubmit_dispatches (Def S230501) 2 before_submit _))).
  reflexivity.
Defined.





(** X7: when the form data cannot be processed (a date that is not a string, a
    query list without [includes]), [handleSubmit] stops before any fetch:
    nothing is dispatched, the two snapshots keep what they held, and
    [isSubmitting] is left set, so the form stays disabled. *)
Theorem handleSubmit_raises (gcnEvent : nullable GcnEvent.t) (a : nat)
    (st : form_store) :
  submittable (objects st !!! a) = false ->
  let r := handleSubmit gcnEvent a st in
  completed r = false
  /\ dispatched r = []
  /\ isSubmitting (ui (after r)) = true
  /\ formDataState (after r) = formDataState st
  /\ sourceFilteringState (after r) = sourceFilteringState st.
Proof.
  intros H r. subst r. unfold handleSubmit. cbv zeta.
  change (objects (setIsSubmitting true st)) with (objects st).
  unfold submittable in H.
  destruct (get (objects st !!! a) "startDate") as [[| | | |s1]|] eqn:E1;
    simpl strip_offset; cbv iota; try (repeat split; reflexivity).
  rewrite lookup_total_insert_eq, get_insert_ne by discriminate.
  destruct (get (objects st !!! a) "endDate") as [[| | | |s2]|] eqn:E2;
    simpl strip_offset; cbv iota; try (repeat split; reflexivity).
  assert (Hq : forall o t, get o "queryList" = get (objects st !!! a) "queryList" ->
                           queryList_includes o t = Throw_TypeError).
  { intros o t Ho. unfold queryList_includes. rewrite Ho.
    destruct (get (objects st !!! a) "queryList") as [[| | | |s]|items];
      try reflexivity; discriminate. }
  destruct (keys_include _ _); [destruct (index _ _)|]; cbv iota;
    try (repeat split; reflexivity);
    (rewrite Hq;
     [repeat split; reflexivity
     |simpl; rewrite !lookup_total_insert_eq;
      now rewrite !get_insert_ne by discriminate]).
Qed.

Lemma handleSubmit_raises_witness :
  submittable (objects before_bad_submit !!! 2%nat) = false
  /\ dispatched (handleSubmit (Def S230501) 2 before_bad_submit) = []
  /\ isSubmitting (ui (after (handleSubmit (Def S230501) 2 before_bad_submit))) = true.
Proof.
  split; [reflexivity|].
  pose proof (handleSubmit_raises (Def S230501) 2 before_bad_submit eq_refl)
    as (_ & Hd & Hs & _).
  split; assumption.
Defined.

End QuerySubmitClaims.

(** ** Date strings *)

Section StringFacts.
Import JS JSString QuerySubmit.

Lemma prefix_append (p t : string) : String.prefix p (p ++ t) = true.
Proof.
  induction p as [|c p IH]; simpl; [now destruct t|].
  destruct (ascii_dec c c); [assumption|contradiction].
Qed.

Lemma drop_append (p t : string) : drop (String.length p) (p ++ t) = t.
Proof. induction p as [|c p IH]; simpl; [reflexivity|assumption]. Qed.

Lemma append_empty (s : string) : (s ++ "")%string = s.
Proof.
  induction s as [|c s IH]; [reflexivity|].
  change (String c (s ++ "") = String c s). now f_equal.
Qed.

Lemma has_char_append (c : ascii) (s t : string) :
  has_char c (s ++ t) = has_char c s || has_char c t.
Proof.
  induction s as [|d s IH]; [reflexivity|].
  change (has_char c (String d (s ++ t)) = has_char c (String d s) || has_char c t).
  simpl. rewrite <- orb_assoc. now f_equal.
Qed.

Lemma prefix_other_char (c d : ascii) (p s : string) :
  Ascii.eqb c d = false -> String.prefix (String c p) (String d s) = false.
Proof.
  intros H. simpl. destruct (ascii_dec c d) as [->|]; [|reflexivity].
  now rewrite Ascii.eqb_refl in H.
Qed.

Lemma replace_eq (pattern replacement s : string) :
  replace pattern replacement s
  = if String.prefix pattern s
    then (replacement ++ drop (String.length pattern) s)%string
    else match s with
         | EmptyString => EmptyString
         | String c s' => String c (replace pattern replacement s')
         end.
Proof. destruct s; reflexivity. Qed.

(** A pattern whose first character does not occur before it is found
    right where it stands. *)
Lemma replace_at (c : ascii) (p replacement d t : string) :
  has_char c d = false ->
  replace (String c p) replacement (d ++ String c p ++ t)
  = (d ++ replacement ++ t)%string.
Proof.
  intros H. induction d as [|x d IH].
  - change ("" ++ String c p ++ t)%string with (String c p ++ t)%string.
    rewrite replace_eq, prefix_append, drop_append. reflexivity.
  - simpl in H. apply orb_false_iff in H as [Hx Hd].
    change (String x d ++ String c p ++ t)%string
      with (String x (d ++ String c p ++ t)).
    rewrite replace_eq, (prefix_other_char c x p _ Hx), (IH Hd). reflexivity.
Qed.

(** A pattern whose first character does not occur at all changes nothing. *)
Lemma replace_absent (c : ascii) (p replacement s : string) :
  has_char c s = false -> replace (String c p) replacement s = s.
Proof.
  intros H. induction s as [|x s IH]; [reflexivity|].
  simpl in H. apply orb_false_iff in H as [Hx Hs].
  rewrite replace_eq, (prefix_other_char c x p _ Hx), (IH Hs). reflexivity.
Qed.

(** X8: a date written without "+" and "." comes out of the stripping
    unchanged, whether it arrives bare, with the suffix "+00:00" or with the
    suffix ".000Z". *)
Theorem strip_suffixes (d : string) :
  has_char "+" d = false -> has_char "." d = false ->
  strip d = d
  /\ strip (d ++ "+00:00") = d
  /\ strip (d ++ ".000Z") = d.
Proof.
  intros Hplus Hdot. unfold strip. repeat split.
  - rewrite (replace_absent "+" "00:00" "" d Hplus). now apply replace_absent.
  - change (d ++ "+00:00")%string with (d ++ String "+" "00:00" ++ "")%string.
    rewrite (replace_at "+" "00:00" "" d "" Hplus).
    change ("" ++ "")%string with "". rewrite append_empty.
    now apply replace_absent.
  - rewrite (replace_absent "+" "00:00" "" (d ++ ".000Z")).
    + change (d ++ ".000Z")%string with (d ++ String "." "000Z" ++ "")%string.
      rewrite (replace_at "." "000Z" "" d "" Hdot).
      change ("" ++ "")%string with "". apply append_empty.
    + rewrite has_char_append, Hplus. reflexivity.
Qed.

Lemma strip_suffixes_witness :
  strip "2023-05-01T00:00:00" = "2023-05-01T00:00:00"
  /\ strip ("2023-05-01T00:00:00" ++ "+00:00") = "2023-05-01T00:00:00"
  /\ strip ("2023-05-01T00:00:00" ++ ".000Z") = "2023-05-01T00:00:00".
Proof. apply (strip_suffixes "2023-05-01T00:00:00"); reflexivity. Defined.

End StringFacts.

(** ** Paging and sorting of the sources table *)

Section SourcesPageFacts.
Import JS JSString SourcesPage.

(** X9: a sort request made after a change of page size asks for the first
    page at that page size, and carries the localization name of the page,
    whatever the filter says; without sort data the sort handler raises. *)
Theorem sorting_after_pagination (dateobs localizationName : string)
    (pageNumber numPerPage : value)
    (pageSort pageFilter sortData filterData : nullable (gmap string value)) :
  let rows := fst (handleSourcesTablePagination dateobs localizationName
                     pageNumber numPerPage pageSort pageFilter) in
  (forall fields, sortData = Def fields ->
   exists data,
     handleSourcesTableSorting dateobs localizationName rows sortData filterData
     = Normal (dateobs, data)
     /\ data !! "numPerPage" = Some numPerPage
     /\ data !! "pageNumber" = Some (VPrim (num 1))
     /\ data !! "localizationName" = Some (VPrim (PStr localizationName))
     /\ data !! "sortBy" = Some (get fields "name")
     /\ data !! "sortOrder" = Some (get fields "direction"))
  /\ (present sortData = false ->
      handleSourcesTableSorting dateobs localizationName rows sortData filterData
      = Throw_TypeError).
Proof.
  intros rows. split.
  - intros fields ->. eexists. split; [reflexivity|]. subst rows. simpl.
    repeat split;
      repeat (first [apply lookup_insert_eq | rewrite lookup_insert_ne by discriminate]).
  - intros H. destruct sortData; try discriminate; reflexivity.
Qed.

Lemma sorting_after_pagination_witness :
  handleSourcesTableSorting "2023-05-01T09:58:12" "bayestar.fits.gz"
    (fst (handleSourcesTablePagination "2023-05-01T09:58:12" "bayestar.fits.gz"
            (VPrim (num 3)) (VPrim (num 50)) Undefined Undefined))
    Undefined (Def ∅)
  = Throw_TypeError.
Proof.
  apply (sorting_after_pagination "2023-05-01T09:58:12" "bayestar.fits.gz").
  reflexivity.
Defined.

(** X10: a page request keeps every field of the filter except the ones it
    sets: the localization name, the page number and the page size always,
    the sort column and order only when real sort data comes with it; with
    no or empty sort data a sort column already in the filter goes out
    unchanged. *)
Theorem pagination_data (dateobs localizationName : string)
    (pageNumber numPerPage : value)
    (sortData filterData : nullable (gmap string value)) :
  let data := snd (snd (handleSourcesTablePagination dateobs localizationName
                          pageNumber numPerPage sortData filterData)) in
  data !! "localizationName" = Some (VPrim (PStr localizationName))
  /\ data !! "pageNumber" = Some pageNumber
  /\ data !! "numPerPage" = Some numPerPage
  /\ (has_sort sortData = false ->
      data !! "sortBy" = spread filterData !! "sortBy"
      /\ data !! "sortOrder" = spread filterData !! "sortOrder")
  /\ (forall k, k <> "localizationName" -> k <> "pageNumber" -> k <> "numPerPage" ->
      k <> "sortBy" -> k <> "sortOrder" ->
      data !! k = spread filterData !! k).
Proof.
  intros data. subst data. unfold handleSourcesTablePagination. simpl.
  destruct (has_sort sortData); repeat split;
    try discriminate;
    intros;
    repeat (first [apply lookup_insert_eq
                  |rewrite lookup_insert_ne by (discriminate || congruence)]);
    reflexivity.
Qed.

Lemma pagination_data_witness :
  snd (snd (handleSourcesTablePagination "2023-05-01T09:58:12" "bayestar.fits.gz"
              (VPrim (num 2)) (VPrim (num 50)) (Def ∅)
              (Def {[ "sortBy" := VPrim (PStr "ra");
                      "localizationName" := VPrim (PStr "stale.fits") ]})))
    !! "sortBy"
  = Some (VPrim (PStr "ra")).
Proof.
  refine (eq_trans
            (proj1 (proj1 (proj2 (proj2 (proj2
               (pagination_data "2023-05-01T09:58:12" "bayestar.fits.gz"
                  (VPrim (num 2)) (VPrim (num 50)) (Def ∅)
                  (Def {[ "sortBy" := VPrim (PStr "ra");
                          "localizationName" := VPrim (PStr "stale.fits") ]})))))
               _)) _);
    reflexivity.
Defined.

End SourcesPageFacts.

(** ** The grid template *)

Section FieldTemplateFacts.
Import JS JSString FieldTemplate.

Lemma traverse_Normal {A B} (f : A -> completion B) (items : list A) (ys : list B) :
  traverse f items = Normal ys <-> Forall2 (fun x y => f x = Normal y) items ys.
Proof.
  revert ys. induction items as [|x items IH]; intros ys; simpl.
  - split; [intros [= <-]; constructor|intros H; inversion H; reflexivity].
  - split.
    + destruct (f x) as [y|] eqn:Ex; simpl; [|discriminate].
      destruct (traverse f items) as [ys'|] eqn:Et; simpl; [|discriminate].
      intros [= <-]. constructor; [assumption|]. now apply IH.
    + intros H. inversion H as [|? y ? ys' Hx Hrest]; subst.
      rewrite Hx. simpl. apply IH in Hrest. rewrite Hrest. reflexivity.
Qed.

Lemma traverse_defined {A B} (f : A -> completion B) (items : list A) :
  Forall (fun x => exists y, f x = Normal y) items ->
  exists ys, traverse f items = Normal ys.
Proof.
  induction 1 as [|x items [y Hy] _ [ys Hys]]; simpl.
  - eauto.
  - rewrite Hy, Hys. simpl. eauto.
Qed.

Lemma traverse_Throw {A B} (f : A -> completion B) (items : list A) :
  Exists (fun x => f x = Throw_TypeError) items ->
  traverse f items = Throw_TypeError.
Proof.
  induction 1 as [x items Hx|x items _ IH]; simpl.
  - now rewrite Hx.
  - destruct (f x); simpl; [|reflexivity]. now rewrite IH.
Qed.

Lemma property_content_Normal {C} (properties : list (string * C)) (name : string) :
  name ∈ properties.*1 -> exists c, property_content properties name = Normal c.
Proof.
  intros H. unfold property_content.
  destruct (List.find _ properties) as [p|] eqn:E; [eauto|].
  apply list_elem_of_fmap in H as ([n c] & -> & Hin).
  apply list_elem_of_In in Hin.
  pose proof (find_none _ _ E _ Hin) as Hf. simpl in Hf.
  now rewrite String.eqb_refl in Hf.
Qed.

Lemma property_content_Throw {C} (properties : list (string * C)) (name : string) :
  name ∉ properties.*1 -> property_content properties name = Throw_TypeError.
Proof.
  intros H. unfold property_content.
  destruct (List.find _ properties) as [[n c]|] eqn:E; [|reflexivity].
  apply find_some in E as [Hin Hn]. simpl in Hn. apply String.eqb_eq in Hn. subst n.
  exfalso. apply H. apply list_elem_of_fmap. exists (name, c).
  split; [reflexivity|]. now apply list_elem_of_In.
Qed.

Lemma template_shape {C} (properties : list (string * C))
    (grid : list (list (string * Z))) (rows : list (list (cell C))) :
  MyObjectFieldTemplate properties grid = Normal rows ->
  map (map (fun c => (key c, xs c))) rows = grid.
Proof.
  unfold MyObjectFieldTemplate. intros H. apply traverse_Normal in H.
  induction H as [|row cells grid rows Hrow _ IH]; simpl; [reflexivity|].
  f_equal; [|assumption]. apply traverse_Normal in Hrow.
  clear -Hrow. induction Hrow as [|[name w] c row cells Hc _ IH]; simpl;
    [reflexivity|].
  f_equal; [|assumption].
  simpl in Hc. destruct (property_content properties name); [|discriminate].
  simpl in Hc. now injection Hc as <-.
Qed.

(** X11: the template renders if and only if every field named in the grid is
    among the properties it is given; a field without a property makes it
    raise. What it renders has the rows, the fields and the widths of the
    grid, in the same order. *)
Theorem template_renders_iff {C} (properties : list (string * C))
    (grid : list (list (string * Z))) :
  ((exists rows, MyObjectFieldTemplate properties grid = Normal rows)
   <-> Forall (Forall (fun field => field.1 ∈ properties.*1)) grid)
  /\ (MyObjectFieldTemplate properties grid = Throw_TypeError
      <-> Exists (Exists (fun field => field.1 ∉ properties.*1)) grid)
  /\ (forall rows, MyObjectFieldTemplate properties grid = Normal rows ->
      map (map (fun c => (key c, xs c))) rows = grid).
Proof.
  assert (Hgood : Forall (Forall (fun field : string * Z => field.1 ∈ properties.*1)) grid ->
                  exists rows, MyObjectFieldTemplate properties grid = Normal rows).
  { intros H. apply traverse_defined.
    eapply Forall_impl; [exact H|]. intros row Hrow. simpl in Hrow.
    apply traverse_defined. eapply Forall_impl; [exact Hrow|].
    intros [name w] Hin. simpl in *.
    destruct (property_content_Normal properties name Hin) as [c ->]. simpl. eauto. }
  assert (Hbad : Exists (Exists (fun field : string * Z => field.1 ∉ properties.*1)) grid ->
                 MyObjectFieldTemplate properties grid = Throw_TypeError).
  { intros H. apply traverse_Throw.
    eapply Exists_impl; [exact H|]. intros row Hrow. simpl in Hrow.
    apply traverse_Throw. eapply Exists_impl; [exact Hrow|].
    intros [name w] Hin. simpl in *.
    now rewrite (property_content_Throw properties name Hin). }
  assert (Hdec : Forall (Forall (fun field : string * Z => field.1 ∈ properties.*1)) grid
                 \/ Exists (Exists (fun field : string * Z => field.1 ∉ properties.*1)) grid).
  { clear Hgood Hbad. induction grid as [|row grid IH]; [left; constructor|].
    assert (Hrow : Forall (fun field : string * Z => field.1 ∈ properties.*1) row
                   \/ Exists (fun field : string * Z => field.1 ∉ properties.*1) row).
    { clear. induction row as [|field row IH]; [left; constructor|].
      destruct (decide (field.1 ∈ properties.*1)) as [Hin|Hout].
      - destruct IH as [IH|IH]; [left; now constructor|right; now right].
      - right. now left. }
    destruct Hrow as [Hrow|Hrow]; [|right; now left].
    destruct IH as [IH|IH]; [left; now constructor|right; now right]. }
  split; [|split].
  - split; [|exact Hgood]. intros [rows Hrows].
    destruct Hdec as [H|H]; [assumption|]. apply Hbad in H. congruence.
  - split; [|exact Hbad]. intros Hthrow.
    destruct Hdec as [H|H]; [|assumption]. apply Hgood in H as [rows H]. congruence.
  - intros rows. apply template_shape.
Qed.

Lemma template_renders_iff_witness :
  map (map (fun c => (key c, xs c)))
    [[{| xs := 6; key := "startDate"; content := 1%nat |}]]
  = [[("startDate", 6)]].
Proof.
  apply (template_renders_iff [("startDate", 1%nat)] [[("startDate", 6)]]).
  reflexivity.
Defined.

(** X12: with the grid of the query form, the template renders as soon as every
    property of the form's schema is supplied; it then shows each schema
    property exactly once, in schema order, in rows whose widths add up to
    12. Every required field of the schema is one of its properties. *)
Theorem query_form_grid {C} (properties : list (string * C)) :
  Forall (fun name => name ∈ properties.*1) schema_properties ->
  exists rows,
    MyObjectFieldTemplate properties uiSchema_grid = Normal rows
    /\ concat (map (map key) rows) = schema_properties
    /\ Forall (fun row => list_sum (map (fun c => Z.to_nat (xs c)) row) = 12%nat) rows
    /\ Forall (fun name => name ∈ schema_properties) schema_required.
Proof.
  intros H.
  assert (Hin : forall name, name ∈ schema_properties -> name ∈ properties.*1).
  { now apply Forall_forall. }
  assert (Hex : exists rows, MyObjectFieldTemplate properties uiSchema_grid = Normal rows).
  { apply traverse_defined. repeat constructor; apply traverse_defined;
      repeat constructor; simpl;
      match goal with
      | |- exists y, (let! c := property_content _ ?n in _) = _ =>
          destruct (property_content_Normal properties n) as [c ->];
          [apply Hin, list_elem_of_In; simpl; auto 12|simpl; eauto]
      end. }
  destruct Hex as [rows Hrows]. exists rows. split; [assumption|].
  pose proof (template_shape _ _ _ Hrows) as Hshape.
  assert (Hkeys : map (map key) rows = map (map fst) uiSchema_grid).
  { rewrite <- Hshape. rewrite map_map. apply map_ext. intros row.
    rewrite map_map. reflexivity. }
  assert (Hxs : map (map xs) rows = map (map snd) uiSchema_grid).
  { rewrite <- Hshape. rewrite map_map. apply map_ext. intros row.
    rewrite map_map. reflexivity. }
  split; [rewrite Hkeys; reflexivity|]. split.
  - apply Forall_forall. intros row Hrow.
    assert (Hs : list_sum (map (fun c => Z.to_nat (xs c)) row)
                 = list_sum (map Z.to_nat (map xs row))) by now rewrite map_map.
    rewrite Hs.
    assert (Hmem : map xs row ∈ map (map snd) uiSchema_grid).
    { rewrite <- Hxs. apply list_elem_of_fmap. eauto. }
    apply list_elem_of_In in Hmem. simpl in Hmem.
    destruct Hmem as [<-|[<-|[<-|[<-|[]]]]]; reflexivity.
  - unfold schema_required, schema_properties.
    repeat constructor; apply list_elem_of_In; simpl; auto 12.
Qed.

Lemma query_form_grid_witness :
  exists rows,
    MyObjectFieldTemplate (map (fun name => (name, name)) schema_properties)
      uiSchema_grid = Normal rows
    /\ concat (map (map key) rows) = schema_properties
    /\ Forall (fun row => list_sum (map (fun c => Z.to_nat (xs c)) row) = 12%nat) rows
    /\ Forall (fun name => name ∈ schema_properties) schema_required.
Proof.
  apply (query_form_grid (map (fun name => (name, name)) schema_properties)).
  unfold schema_properties. simpl.
  repeat constructor; apply list_elem_of_In; simpl; auto 12.
Defined.

End FieldTemplateFacts.

(** ** Lookup tables *)

Section LookUpMore.
Import JS.

Context {A : Type} (id : A -> Z).

Lemma lookUp_snoc (l : list A) (x : A) :
  lookUp id (l ++ [x]) = <[id x := x]> (lookUp id l).
Proof. unfold lookUp. now rewrite foldl_app. Qed.

Lemma same_id_same_entry (l : list A) (x y : A) :
  NoDup (map id l) -> x ∈ l -> y ∈ l -> id x = id y -> x = y.
Proof.
  induction l as [|z l IH]; intros Hnd Hx Hy Hid; [inversion Hx|].
  simpl in Hnd. apply NoDup_cons in Hnd as [Hz Hnd].
  assert (Hfresh : forall w, w ∈ l -> id w <> id z).
  { intros w Hw Heq. apply Hz. rewrite <- Heq.
    apply list_elem_of_fmap. eauto. }
  apply elem_of_cons in Hx as [->|Hx]; apply elem_of_cons in Hy as [->|Hy].
  - reflexivity.
  - exfalso. now apply (Hfresh y Hy).
  - exfalso. now apply (Hfresh x Hx).
  - now apply IH.
Qed.

Lemma lookUp_NoDup (l : list A) (x : A) :
  NoDup (map id l) -> x ∈ l -> lookUp id l !! id x = Some x.
Proof.
  intros Hnd Hx.
  assert (Hsome : is_Some (lookUp id l !! id x)) by (apply lookUp_is_Some; eauto).
  destruct Hsome as [y Hy]. rewrite Hy. f_equal.
  apply lookUp_Some in Hy as [Hin Hid].
  now apply (same_id_same_entry l).
Qed.

(** X13: what a lookup table holds under an id is the last element of the list
    with that id; so with ids that are all different every element of the
    list is found under its own id. *)
Theorem lookUp_last_wins (l : list A) :
  (forall z, lookUp id l !! z = last (List.filter (fun x => Z.eqb (id x) z) l))
  /\ (NoDup (map id l) -> forall x, x ∈ l -> lookUp id l !! id x = Some x).
Proof.
  split; [|intros Hnd x Hx; now apply lookUp_NoDup].
  intros z. induction l as [|x l IH] using rev_ind; [reflexivity|].
  rewrite lookUp_snoc, List.filter_app. simpl.
  destruct (Z.eqb_spec (id x) z) as [->|Hne].
  - rewrite lookup_insert_eq. now rewrite last_snoc.
  - rewrite lookup_insert_ne by assumption. now rewrite app_nil_r.
Qed.

End LookUpMore.

Section LookUpWitness.
Import JS Samples.

Lemma lookUp_last_wins_witness :
  lookUp Instrument.id [WINTER; DECam; ZTF] !! Instrument.id DECam = Some DECam.
Proof.
  apply (lookUp_last_wins Instrument.id [WINTER; DECam; ZTF]).
  - simpl. repeat constructor; rewrite ?list_elem_of_In; simpl; intuition discriminate.
  - apply list_elem_of_In. simpl. auto.
Defined.

End LookUpWitness.

(** ** Defaults, the overlay fetch and the localization fetch *)

Section SelectionFacts.
Import JS JSString GcnSelectionForm SelectionMenus Samples.

Lemma find_localization_head (loc : Localization.t) (rest : list Localization.t) :
  find_localization (loc :: rest) (SelId (Localization.id loc)) = Some loc.
Proof. unfold find_localization. simpl. now rewrite Z.eqb_refl. Qed.

Lemma locLookUp_event (ev : GcnEvent.t) (locs : list Localization.t) :
  GcnEvent.localizations ev = Def locs ->
  locLookUp (Def ev) = lookUp Localization.id locs.
Proof. unfold locLookUp, event_localizations. simpl. now intros ->. Qed.

(** X14: whenever the defaults are applied, the overlay fetch that follows is
    dispatched: it asks for the selected default instrument and for a
    localization of the event that has the id of the first one. *)
Theorem defaults_trigger_skymap_fetch (dateobs : string) (ev : GcnEvent.t)
    (instrumentList : list Instrument.t) (loc : Localization.t)
    (rest : list Localization.t) (s : state) :
  GcnEvent.dateobs ev = dateobs -> dateobs <> "" ->
  GcnEvent.localizations ev = Def (loc :: rest) ->
  instrumentList <> [] ->
  let s' := defaults_effect dateobs (Def ev) instrumentList s in
  exists i found,
    selectedInstrumentId s' = SelId i
    /\ found ∈ loc :: rest
    /\ Localization.id found = Localization.id loc
    /\ fetchSkymapInstrument_effect instrumentList (Def ev) s'
       = Some {| request_instrument_id := Def i;
                 request_localization := Def found |}.
Proof.
  intros Hd Hne Hlocs Hinst s'. subst s'.
  rewrite (defaults_effect_runs dateobs ev instrumentList (loc :: rest) s)
    by (assumption || discriminate).
  destruct (orderedInstrumentList_head instrumentList Hinst) as (i & Hi & Hin).
  assert (Hres : is_Some (instLookUp instrumentList !! Instrument.id i)).
  { apply (instLookUp_resolves instrumentList (SelId (Instrument.id i))). eauto. }
  destruct Hres as [i' Hi'].
  assert (Hid : Instrument.id i' = Instrument.id i).
  { unfold instLookUp in Hi'. now apply lookUp_Some in Hi' as [_ ?]. }
  assert (Hl : is_Some (lookUp Localization.id (loc :: rest) !! Localization.id loc)).
  { apply lookUp_is_Some. exists loc. split; [left|reflexivity]. }
  destruct Hl as [found Hfound].
  pose proof (lookUp_Some _ _ _ _ Hfound) as [Hfin Hfid].
  exists (Instrument.id i), found.
  unfold fetchSkymapInstrument_effect, setDefaults. simpl.
  rewrite (first_id_head _ _ _ Hi). simpl.
  rewrite (locLookUp_event ev _ Hlocs).
  rewrite Hi'. simpl.
  assert (Hk : keys_include (lookUp Localization.id (loc :: rest))
                 (SelId (Localization.id loc)) = true).
  { apply keys_include_spec. simpl. eauto. }
  simpl in Hk. rewrite Hk, Hfound. simpl. rewrite Hid. auto.
Qed.

Lemma defaults_trigger_skymap_fetch_witness :
  exists i found,
    selectedInstrumentId
      (defaults_effect "2023-05-01T09:58:12" (Def S230501) [WINTER; DECam; ZTF]
         (initial Null)) = SelId i
    /\ found ∈ [bayestar; bilby]
    /\ Localization.id found = Localization.id bayestar
    /\ fetchSkymapInstrument_effect [WINTER; DECam; ZTF] (Def S230501)
         (defaults_effect "2023-05-01T09:58:12" (Def S230501) [WINTER; DECam; ZTF]
            (initial Null))
       = Some {| request_instrument_id := Def i;
                 request_localization := Def found |}.
Proof.
  apply (defaults_trigger_skymap_fetch "2023-05-01T09:58:12" S230501
           [WINTER; DECam; ZTF] bayestar [bilby] (initial Null));
    first [reflexivity|discriminate].
Defined.

(** X15: after the defaults are applied, the localization fetch asks, for the
    loaded event, for the very name that was selected (the first
    localization's), provided that name is not empty; with an empty name
    nothing is fetched. *)
Theorem defaults_trigger_localization_fetch (dateobs : string) (ev : GcnEvent.t)
    (instrumentList : list Instrument.t) (loc : Localization.t)
    (rest : list Localization.t) (s : state) :
  GcnEvent.dateobs ev = dateobs -> dateobs <> "" ->
  GcnEvent.localizations ev = Def (loc :: rest) ->
  instrumentList <> [] ->
  let s' := defaults_effect dateobs (Def ev) instrumentList s in
  selectedLocalizationName s' = Def (Localization.localization_name loc)
  /\ fetchLocalization_effect (Def ev) s'
     = Normal (if String.eqb (Localization.localization_name loc) "" then None
               else Some {| request_dateobs := dateobs;
                            request_name := selectedLocalizationName s';
                            request_type := "analysis" |}).
Proof.
  intros Hd Hne Hlocs Hinst s'. subst s'.
  rewrite (defaults_effect_runs dateobs ev instrumentList (loc :: rest) s)
    by (assumption || discriminate).
  split; [reflexivity|].
  unfold fetchLocalization_effect, setDefaults. simpl.
  unfold QuerySubmit.event_dateobs. simpl. rewrite Hd, Hlocs.
  destruct (String.eqb_spec (Localization.localization_name loc) ""); simpl;
    [reflexivity|].
  destruct (String.eqb_spec dateobs ""); [contradiction|]. simpl.
  unfold find_localization. simpl. now rewrite Z.eqb_refl.
Qed.

Lemma defaults_trigger_localization_fetch_witness :
  fetchLocalization_effect (Def S230501)
    (defaults_effect "2023-05-01T09:58:12" (Def S230501) [WINTER; DECam; ZTF]
       (initial Null))
  = Normal (Some {| request_dateobs := "2023-05-01T09:58:12";
                    request_name := Def "bayestar.fits.gz";
                    request_type := "analysis" |}).
Proof.
  refine (proj2 (defaults_trigger_localization_fetch "2023-05-01T09:58:12" S230501
                   [WINTER; DECam; ZTF] bayestar [bilby] (initial Null) _ _ _ _));
    first [reflexivity|discriminate].
Defined.

Lemma localization_items_ids (ev : GcnEvent.t) (locs : list Localization.t) :
  GcnEvent.localizations ev = Def locs ->
  (localization_items (Def ev)).*1 = map Localization.id locs.
Proof.
  unfold localization_items, event_localizations. simpl. intros ->.
  induction locs as [|loc locs IH]; simpl; [reflexivity|now f_equal].
Qed.

(** X16: choosing a localization from the menu succeeds for every id the menu
    offers and raises for any other value. When the ids of the event's
    localizations are all different, the name then selected is the name the
    localization fetch asks for. *)
Theorem localization_change (ev : GcnEvent.t) (locs : list Localization.t)
    (v : Z) (s : state) :
  GcnEvent.localizations ev = Def locs ->
  (v ∈ (localization_items (Def ev)).*1 <->
   exists s', handleSelectedLocalizationChange (Def ev) (SelId v) s = Normal s')
  /\ (v ∉ (localization_items (Def ev)).*1 ->
      handleSelectedLocalizationChange (Def ev) (SelId v) s = Throw_TypeError)
  /\ (NoDup (map Localization.id locs) ->
      forall s', handleSelectedLocalizationChange (Def ev) (SelId v) s = Normal s' ->
      selectedLocalizationId s' = SelId v
      /\ Localization.localization_name
           <$> find_localization locs (selectedLocalizationId s')
         = match selectedLocalizationName s' with
           | Def name => Some name
           | _ => None
           end).
Proof.
  intros Hlocs.
  pose proof (localization_items_ids ev locs Hlocs) as Hitems.
  assert (Hin : v ∈ (localization_items (Def ev)).*1
                <-> is_Some (lookUp Localization.id locs !! v)).
  { rewrite Hitems, lookUp_is_Some. split.
    - intros H. apply list_elem_of_In, in_map_iff in H as (x & <- & Hx).
      apply list_elem_of_In in Hx. eauto.
    - intros (x & Hx & <-). apply list_elem_of_In, in_map_iff.
      exists x. split; [reflexivity|now apply list_elem_of_In]. }
  unfold handleSelectedLocalizationChange. rewrite (locLookUp_event ev locs Hlocs).
  simpl. split; [|split].
  - rewrite Hin. split.
    + intros [loc ->]. eauto.
    + intros [s' H]. destruct (lookUp _ _ !! v); [eauto|discriminate].
  - intros Hout. destruct (lookUp _ _ !! v) as [loc|] eqn:E; [|reflexivity].
    exfalso. apply Hout, Hin. eauto.
  - intros Hnd s'. destruct (lookUp _ _ !! v) as [loc|] eqn:E; [|discriminate].
    intros [= <-]. simpl. split; [reflexivity|].
    apply lookUp_Some in E as [Hloc Hid].
    destruct (find_localization locs (SelId v)) as [loc'|] eqn:F.
    + apply find_some in F as [Hin' Hv]. simpl in Hv. apply Z.eqb_eq in Hv.
      apply list_elem_of_In in Hin'.
      assert (loc' = loc) as ->
        by (apply (same_id_same_entry Localization.id locs); congruence).
      reflexivity.
    + exfalso. apply list_elem_of_In in Hloc.
      pose proof (find_none _ _ F _ Hloc) as Hf. simpl in Hf.
      rewrite Hid, Z.eqb_refl in Hf. discriminate.
Qed.

Lemma localization_change_witness :
  handleSelectedLocalizationChange (Def S230501) (SelId 5) (initial Null)
  = Throw_TypeError.
Proof.
  refine (proj1 (proj2 (localization_change S230501 [bayestar; bilby] 5
                          (initial Null) _)) _).
  - reflexivity.
  - rewrite list_elem_of_In. simpl. intuition discriminate.
Defined.

End SelectionFacts.

(** ** More on the Treasure Map buttons *)

Section TreasureMapMore.
Import JS GcnSelectionForm Samples.

Lemma remove_one_other (x y : selection) (l : list selection) :
  y <> x -> y ∈ l -> y ∈ remove_one x l.
Proof.
  intros Hne. induction l as [|z l IH]; intros Hin; [inversion Hin|].
  simpl. case_bool_decide as Hz.
  - subst z. apply elem_of_cons in Hin as [->|Hin]; [contradiction|assumption].
  - apply elem_of_cons in Hin as [->|Hin]; [left|right; now apply IH].
Qed.

(** X17: as soon as any submission settles, the submit control of the selected
    instrument is the button again, also while other submissions, the
    selected instrument's own among them, are still in flight. *)
Theorem settled_submission_restores_button (w : world) (settled : selection) (a : Z) :
  settled ∈ submitting w ->
  selectedInstrumentId (ui w) = SelId a ->
  let w' := step w (SubmitSettled settled) in
  submit_control (ui w')
  = Button "Send to Treasure Map" ("treasuremapRequest_", SelId a)
  /\ (forall other, other ∈ submitting w -> other <> settled ->
      other ∈ submitting w').
Proof.
  intros Hin Hsel w'. subst w'. simpl.
  rewrite bool_decide_eq_true_2 by assumption. simpl. split.
  - unfold submit_control, sel_strict_eq. simpl. rewrite Hsel. reflexivity.
  - intros other Ho Hne. now apply remove_one_other.
Qed.

Lemma settled_submission_restores_button_witness :
  let w := run [SelectInstrument (SelId 2); ClickSendToTreasureMap;
                SelectInstrument (SelId 1); ClickSendToTreasureMap]
             (start Null) in
  (SelId 2 ∈ submitting w /\ selectedInstrumentId (ui w) = SelId 1)
  /\ submit_control (ui (step w (SubmitSettled (SelId 2))))
     = Button "Send to Treasure Map" ("treasuremapRequest_", SelId 1)
  /\ SelId 1 ∈ submitting (step w (SubmitSettled (SelId 2))).
Proof.
  intros w.
  assert (H2 : SelId 2 ∈ submitting w) by (right; left).
  assert (H1 : selectedInstrumentId (ui w) = SelId 1) by reflexivity.
  split; [split; assumption|].
  destruct (settled_submission_restores_button w (SelId 2) 1 H2 H1) as [Hb Hkeep].
  split; [exact Hb|]. apply Hkeep; [left|discriminate].
Defined.

(** X18: with no submission in flight, the submit control is the progress
    indicator exactly when no instrument has been selected yet (the
    selection is still [null]); for any other selection it is the button. *)
Theorem idle_submit_control (name : nullable string) (events : list event) :
  let w := run events (start name) in
  submitting w = [] ->
  (submit_control (ui w) = Div [CircularProgress]
   <-> selectedInstrumentId (ui w) = SelNull)
  /\ (selectedInstrumentId (ui w) <> SelNull ->
      submit_control (ui w)
      = Button "Send to Treasure Map"
          ("treasuremapRequest_", selectedInstrumentId (ui w))).
Proof.
  intros w Hidle.
  pose proof (run_flag_in_flight events (start name) (start_flag_in_flight name))
    as Hinv.
  fold w in Hinv. destruct Hinv as [Hnull|Hin];
    [|rewrite Hidle in Hin; inversion Hin].
  unfold submit_control, sel_strict_eq. rewrite Hnull.
  case_bool_decide as Hs; split.
  - split; [intros _; now symmetry|reflexivity].
  - intros Hne. now symmetry in Hs.
  - split; [discriminate|intros Heq; now symmetry in Heq].
  - reflexivity.
Qed.

Lemma idle_submit_control_witness :
  submit_control (ui (run [] (start Null))) = Div [CircularProgress]
  /\ submit_control
       (ui (run [SelectInstrument (SelId 2); ClickSendToTreasureMap;
                 SubmitSettled (SelId 2)] (start Null)))
     = Button "Send to Treasure Map" ("treasuremapRequest_", SelId 2).
Proof.
  split.
  - apply (idle_submit_control Null []); reflexivity.
  - refine (proj2 (idle_submit_control Null
                     [SelectInstrument (SelId 2); ClickSendToTreasureMap;
                      SubmitSettled (SelId 2)] _) _);
      [reflexivity|discriminate].
Defined.

End TreasureMapMore.

Section TreasureMapPayload.
Import JS JSString GcnSelectionForm QuerySubmit Samples Samples2.

Lemma treasureMap_data_lookup (filterParams : gmap string value) (k : string) :
  treasureMap_data filterParams !! k
  = if bool_decide (k ∈ treasureMap_fields) then Some (get filterParams k) else None.
Proof.
  unfold treasureMap_data, treasureMap_fields. simpl.
  repeat (rewrite lookup_insert; case_decide;
          [subst k;
           rewrite bool_decide_eq_true_2 by (apply list_elem_of_In; simpl; auto 10);
           reflexivity|]).
  rewrite lookup_empty, bool_decide_eq_false_2; [reflexivity|].
  intros Hin. apply list_elem_of_In in Hin. simpl in Hin. intuition congruence.
Qed.

(** X19: the payload both Treasure Map handlers build has exactly the five
    fields start date, end date, cumulative probability, localization name
    and localization dateobs, each read from the filter parameters handed to
    the handler (undefined when they lack it); nothing else of them is sent.
    Built from the form data state as it is before any submission, it
    carries the two default dates and undefined for the other three
    fields. *)
Theorem treasureMap_payload (filterParams : gmap string value)
    (defaultStartDate defaultEndDate : string) :
  (forall k,
     treasureMap_data filterParams !! k
     = if bool_decide (k ∈ treasureMap_fields) then Some (get filterParams k) else None)
  /\ size (treasureMap_data filterParams) = 5%nat
  /\ treasureMap_data (initial_formData defaultStartDate defaultEndDate)
     = <["startDate" := VPrim (PStr defaultStartDate)]>
         (<["endDate" := VPrim (PStr defaultEndDate)]>
            (<["localizationCumprob" := VPrim PUndefined]>
               (<["localizationName" := VPrim PUndefined]>
                  (<["localizationDateobs" := VPrim PUndefined]> ∅)))).
Proof.
  split; [apply treasureMap_data_lookup|]. split.
  - unfold treasureMap_data, treasureMap_fields. simpl.
    rewrite !map_size_insert_None;
      [reflexivity|..];
      repeat (first [apply lookup_empty | rewrite lookup_insert_ne by discriminate]).
  - apply map_eq. intros k. rewrite treasureMap_data_lookup.
    unfold initial_formData, treasureMap_fields.
    repeat (rewrite (lookup_insert (M := gmap string)); case_decide;
            [subst k; vm_compute; reflexivity|]).
    rewrite lookup_empty, bool_decide_eq_false_2; [reflexivity|].
    intros Hin. apply list_elem_of_In in Hin. simpl in Hin. intuition congruence.
Qed.

End TreasureMapPayload.

(** ** The instrument menu *)

Section InstrumentMenuFacts.
Import JS JSString GcnSelectionForm SelectionMenus Samples.

Lemma sort_insert_perm {A} (compareFn : A -> A -> Z) (x : A) (l : list A) :
  sort_insert compareFn x l ≡ₚ x :: l.
Proof.
  induction l as [|y l IH]; simpl; [reflexivity|].
  destruct (Z.leb _ _); [reflexivity|].
  rewrite IH. apply perm_swap.
Qed.

Lemma Array_sort_perm {A} (compareFn : A -> A -> Z) (l : list A) :
  Array_sort compareFn l ≡ₚ l.
Proof.
  induction l as [|x l IH]; simpl; [reflexivity|].
  rewrite sort_insert_perm. now rewrite IH.
Qed.

Lemma by_name_le (i1 i2 : Instrument.t) :
  (by_name i1 i2 <=? 0) = true <-> name_not_after i1 i2.
Proof.
  unfold by_name, name_not_after.
  destruct (String.ltb (Instrument.name i2) (Instrument.name i1)); simpl.
  - split; discriminate.
  - destruct (String.ltb _ _); simpl; split; reflexivity.
Qed.

Lemma ltb_asym (s1 s2 : string) : String.ltb s1 s2 = true -> String.ltb s2 s1 = false.
Proof.
  unfold String.ltb. rewrite (String.compare_antisym s2 s1).
  destruct (String.compare s1 s2); simpl; congruence.
Qed.

Lemma sort_insert_by_name_sorted (x : Instrument.t) (l : list Instrument.t) :
  Sorted name_not_after l -> Sorted name_not_after (sort_insert by_name x l).
Proof.
  induction 1 as [|y l Hs IH Hhd]; simpl; [repeat constructor|].
  destruct (Z.leb (by_name x y) 0) eqn:E.
  - apply by_name_le in E. repeat constructor; assumption.
  - assert (Hyx : name_not_after y x).
    { unfold name_not_after. apply ltb_asym.
      unfold by_name in E.
      destruct (String.ltb (Instrument.name y) (Instrument.name x));
        [reflexivity|].
      destruct (String.ltb _ _); discriminate. }
    constructor; [assumption|].
    destruct l as [|z l]; simpl; [now constructor|].
    destruct (Z.leb (by_name x z) 0); constructor;
      [assumption|now inversion Hhd].
Qed.

(** X20: the instrument menu offers exactly the loaded instruments, each once
    per occurrence in the list, ordered so that no name is greater than the
    next; an instrument whose telescope is not loaded is labelled with
    "undefined" in place of the telescope name. *)
Theorem instrument_menu (telescopeList : list Telescope.t)
    (instrumentList : list Instrument.t) :
  (instrument_items telescopeList instrumentList).*1
    ≡ₚ map Instrument.id instrumentList
  /\ Sorted name_not_after (sortedInstrumentList instrumentList)
  /\ (forall i, i ∈ instrumentList ->
      telLookUp telescopeList !! Instrument.telescope_id i = None ->
      (Instrument.id i, ("undefined / " ++ Instrument.name i)%string)
        ∈ instrument_items telescopeList instrumentList).
Proof.
  split; [|split].
  - unfold instrument_items.
    transitivity (map Instrument.id (sortedInstrumentList instrumentList)).
    + generalize (sortedInstrumentList instrumentList) as l.
      induction l as [|i l IH]; simpl; [reflexivity|now f_equiv].
    + unfold sortedInstrumentList. now rewrite Array_sort_perm.
  - unfold sortedInstrumentList.
    induction instrumentList as [|x l IH]; simpl; [constructor|].
    now apply sort_insert_by_name_sorted.
  - intros i Hi Htel. unfold instrument_items.
    apply (Array_sort_elem by_name) in Hi.
    apply list_elem_of_In, in_map_iff. exists i.
    split; [|now apply list_elem_of_In].
    rewrite Htel. reflexivity.
Qed.

Lemma instrument_menu_witness :
  (3, "undefined / WINTER") ∈ instrument_items [] [WINTER; DECam; ZTF].
Proof.
  refine (proj2 (proj2 (instrument_menu [] [WINTER; DECam; ZTF])) WINTER _ _).
  - left.
  - reflexivity.
Defined.

End InstrumentMenuFacts.

(** ** What the trigger selector shows *)

Section TriggerViewFacts.
Import JS JSString SkymapTriggerAPIDisplay TriggerSelectorView Samples Samples2.

Lemma lookUp_None {A} (id : A -> Z) (l : list A) (z : Z) :
  lookUp id l !! z = None <-> forall x, x ∈ l -> id x <> z.
Proof.
  split.
  - intros Hn x Hx Hid.
    assert (is_Some (lookUp id l !! z)) as [y Hy] by (apply lookUp_is_Some; eauto).
    congruence.
  - intros H. destruct (lookUp id l !! z) as [y|] eqn:E; [|reflexivity].
    apply lookUp_Some in E as [Hy Hid]. exfalso. now apply (H y).
Qed.

Lemma allocation_label_raises (telescopeList : list Telescope.t)
    (instrumentList : list Instrument.t) (groups : list Group.t)
    (allocation : Allocation.t) :
  (forall i, i ∈ instrumentList ->
             Instrument.id i <> Allocation.instrument_id allocation)
  \/ (forall g, g ∈ groups -> Group.id g <> Allocation.group_id allocation) ->
  allocation_label telescopeList instrumentList groups allocation = Throw_TypeError.
Proof.
  intros H. unfold allocation_label.
  destruct (lookUp Instrument.id instrumentList !! _) as [i|] eqn:Ei; [|reflexivity].
  destruct (lookUp Telescope.id telescopeList !! _) as [t|]; [|reflexivity].
  destruct H as [H|H].
  - apply lookUp_Some in Ei as [Hi Hid]. exfalso. now apply (H i).
  - apply lookUp_None in H. now rewrite H.
Qed.

Lemma allocation_label_defined (telescopeList : list Telescope.t)
    (instrumentList : list Instrument.t) (groups : list Group.t)
    (allocation : Allocation.t) :
  (exists i, i ∈ instrumentList
             /\ Instrument.id i = Allocation.instrument_id allocation) ->
  (forall i, i ∈ instrumentList ->
             exists t, t ∈ telescopeList /\ Telescope.id t = Instrument.telescope_id i) ->
  (exists g, g ∈ groups /\ Group.id g = Allocation.group_id allocation) ->
  exists l, allocation_label telescopeList instrumentList groups allocation = Normal l.
Proof.
  intros Hi Ht Hg. unfold allocation_label.
  apply lookUp_is_Some in Hi as [i Ei]. rewrite Ei.
  apply lookUp_Some in Ei as [Hin _].
  specialize (Ht i Hin). apply lookUp_is_Some in Ht as [t ->].
  apply lookUp_is_Some in Hg as [g ->]. eauto.
Qed.

Lemma allocation_items_ids (telescopeList : list Telescope.t)
    (instrumentList : list Instrument.t) (groups : list Group.t)
    (allocations : list Allocation.t) (labels : list (Z * string)) :
  traverse
    (fun allocation =>
       let! l := allocation_label telescopeList instrumentList groups allocation in
       Normal (Allocation.id allocation, l))
    allocations = Normal labels ->
  map fst labels = map Allocation.id allocations.
Proof.
  revert labels. induction allocations as [|al als IH]; intros labels; simpl.
  - now intros [= <-].
  - destruct (allocation_label _ _ _ al); simpl; [|discriminate].
    destruct (traverse _ als) as [rest|]; simpl; [|discriminate].
    intros [= <-]. simpl. f_equal. now apply IH.
Qed.

(** X21: the allocation menu. With no groups, no telescopes or no instruments
    loaded the component shows its "no instruments" message and with no
    allocations its "no allocations" message, never raising. Otherwise it
    raises as soon as one allocation names an instrument or a group that is
    not loaded; and when every allocation's instrument and group, and every
    instrument's telescope, are loaded, it shows one menu entry per
    allocation, in order, valued by the allocation id. *)
Theorem allocation_menu (allGroups : nullable (list Group.t))
    (telescopeList : list Telescope.t) (instrumentList : list Instrument.t)
    (allocations : list Allocation.t) (gcnEvents : nullable (list GcnEvent.t))
    (s : state) :
  (present allGroups = false \/ allGroups = Def [] \/ telescopeList = []
   \/ instrumentList = [] ->
   render allGroups telescopeList instrumentList allocations gcnEvents s
   = Normal NoInstruments)
  /\ (forall groups,
      allGroups = Def groups -> groups <> [] -> telescopeList <> [] ->
      instrumentList <> [] ->
      (allocations = [] ->
       render allGroups telescopeList instrumentList allocations gcnEvents s
       = Normal NoAllocations)
      /\ (Exists (fun allocation =>
                    (forall i, i ∈ instrumentList ->
                               Instrument.id i <> Allocation.instrument_id allocation)
                    \/ (forall g, g ∈ groups ->
                                  Group.id g <> Allocation.group_id allocation))
            allocations ->
          render allGroups telescopeList instrumentList allocations gcnEvents s
          = Throw_TypeError)
      /\ (allocations <> [] ->
          Forall (fun allocation =>
                    (exists i, i ∈ instrumentList
                               /\ Instrument.id i = Allocation.instrument_id allocation)
                    /\ (exists g, g ∈ groups
                                  /\ Group.id g = Allocation.group_id allocation))
            allocations ->
          (forall i, i ∈ instrumentList ->
                     exists t, t ∈ telescopeList
                               /\ Telescope.id t = Instrument.telescope_id i) ->
          exists c,
            render allGroups telescopeList instrumentList allocations gcnEvents s
            = Normal (Selector c)
            /\ map fst (allocation_items c) = map Allocation.id allocations)).
Proof.
  split.
  - intros H. unfold render. destruct allGroups as [| |groups]; try reflexivity.
    destruct H as [H|[H|[H|H]]]; [discriminate| | |].
    + injection H as ->. reflexivity.
    + subst. simpl. now rewrite orb_true_r.
    + subst. simpl. now rewrite orb_true_r.
  - intros groups -> Hg Ht Hi. unfold render.
    destruct groups as [|g groups]; [contradiction|].
    destruct telescopeList as [|t tels]; [contradiction|].
    destruct instrumentList as [|i insts]; [contradiction|].
    change (Nat.eqb (length (g :: groups)) 0 || Nat.eqb (length (t :: tels)) 0
            || Nat.eqb (length (i :: insts)) 0) with false. cbv iota.
    split; [intros ->; reflexivity|]. split.
    + intros Hex. destruct allocations as [|al als]; [inversion Hex|].
      change (Nat.eqb (length (al :: als)) 0) with false. cbv iota.
      rewrite traverse_Throw; [reflexivity|].
      eapply Exists_impl; [exact Hex|]. intros al' Hal. simpl in Hal |- *.
      now rewrite allocation_label_raises.
    + intros Hne Hall Htel. destruct allocations as [|al als]; [contradiction|].
      change (Nat.eqb (length (al :: als)) 0) with false. cbv iota.
      destruct (traverse_defined
                  (fun allocation =>
                     let! l := allocation_label (t :: tels) (i :: insts) (g :: groups)
                                 allocation in
                     Normal (Allocation.id allocation, l)) (al :: als))
        as [labels Hlabels].
      { eapply Forall_impl; [exact Hall|]. intros al' [Hi' Hg']. simpl in *.
        destruct (allocation_label_defined (t :: tels) (i :: insts) (g :: groups) al'
                    Hi' Htel Hg') as [l ->].
        simpl. eauto. }
      rewrite Hlabels. simpl. eexists. split; [reflexivity|].
      exact (allocation_items_ids (t :: tels) (i :: insts) (g :: groups)
               (al :: als) labels Hlabels).
Qed.

Lemma allocation_menu_witness :
  render (Def [sitewide]) [P48] [WINTER; DECam; ZTF]
    [ztf_allocation; orphan_allocation] (Def [S230501]) initial
  = Throw_TypeError.
Proof.
  refine (proj1 (proj2 (proj2 (allocation_menu (Def [sitewide]) [P48]
                                 [WINTER; DECam; ZTF]
                                 [ztf_allocation; orphan_allocation]
                                 (Def [S230501]) initial)
                               [sitewide] eq_refl _ _ _)) _);
    try discriminate.
  right. left. left. intros i Hi.
  apply list_elem_of_In in Hi. simpl in Hi.
  destruct Hi as [<-|[<-|[<-|[]]]]; discriminate.
Defined.

Example allocation_menu_sample :
  render (Def [sitewide]) [P48] [WINTER; DECam; ZTF] [ztf_allocation]
    (Def [S230501]) initial
  = Normal (Selector
      {| allocation_items := [(9, "P48 / ZTF - Sitewide Group (PI Kulkarni)")];
         allocation_value := SelNull;
         event_items := [(-1, "Clear Selection"); (41, "2023-05-01T09:58:12")];
         event_value := PStr "";
         localization_entries := [];
         localization_value := PStr "";
         localization_disabled := true;
         trigger_items := ["None"];
         trigger_value := Def "None" |}).
Proof. vm_compute. reflexivity. Qed.

Lemma truthy_num (z : Z) : truthy (num z) = negb (Z.eqb z 0).
Proof.
  unfold truthy, num, Qeq_bool, inject_Z. simpl. now rewrite Z.mul_1_r.
Qed.

(** X22: choosing an event in the selector. The handler raises exactly when the
    chosen event is loaded but has no localization list. Otherwise the
    chosen id becomes the selected event, and what "Add trigger" would then
    post is the current allocation together with the id of the event's first
    localization, or the empty string when the event is not loaded, has no
    localization, or its first localization has id 0. *)
Theorem choose_event (gcnEvents : nullable (list GcnEvent.t)) (v : Z) (s : state) :
  v <> -1 ->
  (gcnEvent_onChange gcnEvents v s = Throw_TypeError
   <-> exists ev, gcnEventsLookUp gcnEvents !! v = Some ev
                  /\ present (GcnEvent.localizations ev) = false)
  /\ (forall s', gcnEvent_onChange gcnEvents v s = Normal s' ->
      selectedGcnEventId s' = SelId v
      /\ selectedTriggerName s' = selectedTriggerName s
      /\ handleAdd_data s'
         = (selectedAllocationId s,
            match gcnEventsLookUp gcnEvents !! v with
            | Some ev =>
                match GcnEvent.localizations ev with
                | Def (loc :: _) =>
                    if Z.eqb (Localization.id loc) 0 then PStr ""
                    else num (Localization.id loc)
                | _ => PStr ""
                end
            | None => PStr ""
            end)).
Proof.
  intros Hv. unfold gcnEvent_onChange, first_localization_or_empty.
  destruct (Z.eqb_spec v (-1)) as [|_]; [contradiction|].
  destruct (gcnEventsLookUp gcnEvents !! v) as [ev|]; simpl.
  - destruct (GcnEvent.localizations ev) as [| |[|loc locs]] eqn:El; simpl.
    + split; [split; [intros _; exists ev; split; [reflexivity|now rewrite El]|reflexivity]
             |intros s' Hs; discriminate Hs].
    + split; [split; [intros _; exists ev; split; [reflexivity|now rewrite El]|reflexivity]
             |intros s' Hs; discriminate Hs].
    + split; [split; [intros Hs; discriminate Hs
                     |intros (? & [= <-] & Hp); rewrite El in Hp; discriminate Hp]|].
      intros s' [= <-]. unfold handleAdd_data. simpl.
      rewrite lookup_insert_eq. auto.
    + split; [split; [intros Hs; discriminate Hs
                     |intros (? & [= <-] & Hp); rewrite El in Hp; discriminate Hp]|].
      intros s' [= <-]. unfold handleAdd_data. simpl.
      rewrite lookup_insert_eq. unfold or_else. rewrite truthy_num.
      destruct (Z.eqb (Localization.id loc) 0); auto.
  - split; [split; [intros Hs; discriminate Hs
                   |intros (? & Hs & _); discriminate Hs]|].
    intros s' [= <-]. unfold handleAdd_data. simpl.
    rewrite lookup_insert_eq. auto.
Qed.

Lemma choose_event_witness :
  (let! s' := gcnEvent_onChange (Def [S230501]) 41 after_catalog in
   Normal (handleAdd_data s'))
  = Normal (SelNull, num 11).
Proof.
  destruct (gcnEvent_onChange (Def [S230501]) 41 after_catalog) as [s'|] eqn:E;
    [|discriminate E].
  simpl.
  destruct (choose_event (Def [S230501]) 41 after_catalog) as [_ H];
    [discriminate|].
  destruct (H s' E) as (_ & _ & ->). reflexivity.
Defined.

(** X23: after "Clear Selection", the selector shows empty event and
    localization fields and no localization entries (no loaded event has
    id -1), but the localization select is enabled, not disabled as it is
    before any event is chosen: the selected event id is now -1, not
    [null]. *)
Theorem cleared_selector (allGroups : nullable (list Group.t))
    (telescopeList : list Telescope.t) (instrumentList : list Instrument.t)
    (allocations : list Allocation.t) (gcnEvents : nullable (list GcnEvent.t))
    (s s' : state) (c : selector) :
  gcnEvent_onChange gcnEvents (-1) s = Normal s' ->
  render allGroups telescopeList instrumentList allocations gcnEvents s'
  = Normal (Selector c) ->
  gcnEventsLookUp gcnEvents !! (-1) = None ->
  event_value c = PStr ""
  /\ localization_value c = PStr ""
  /\ localization_entries c = []
  /\ localization_disabled c = false
  /\ trigger_value c = selectedTriggerName s.
Proof.
  intros Hc Hr Hno. unfold gcnEvent_onChange in Hc. simpl in Hc.
  injection Hc as <-. unfold render in Hr.
  destruct allGroups as [| |groups]; try discriminate.
  destruct (_ || _); [discriminate|].
  destruct (Nat.eqb _ 0); [discriminate|].
  destruct (traverse _ allocations) as [labels|]; [|discriminate].
  simpl in Hr. injection Hr as <-. simpl.
  unfold localization_items. simpl. rewrite Hno.
  rewrite lookup_insert_eq.
  rewrite lookup_insert_ne by discriminate. rewrite lookup_insert_eq.
  auto.
Qed.

Lemma cleared_selector_witness :
  exists c,
    render (Def [sitewide]) [P48] [WINTER; DECam; ZTF] [ztf_allocation]
      (Def [S230501])
      {| selectedAllocationId := selectedAllocationId after_catalog;
         triggerList := triggerList after_catalog;
         selectedTriggerName := selectedTriggerName after_catalog;
         selectedGcnEventId := SelId (-1);
         formValues := <["localizationid" := PStr ""]>
                         (<["gcneventid" := PStr ""]> (formValues after_catalog)) |}
    = Normal (Selector c)
    /\ localization_disabled c = false
    /\ trigger_value c = Def "ZTF_S230501_1".
Proof.
  eexists. split; [vm_compute; reflexivity|].
  match goal with
  | |- localization_disabled ?c = _ /\ _ =>
      pose proof (cleared_selector (Def [sitewide]) [P48] [WINTER; DECam; ZTF]
                    [ztf_allocation] (Def [S230501]) after_catalog _ c
                    eq_refl) as H
  end.
  destruct H as (_ & _ & _ & Hd & Ht); [vm_compute; reflexivity|reflexivity|].
  split; [exact Hd|exact Ht].
Defined.

End TriggerViewFacts.

(** ** The sources page inside the sources pane *)

Section SourcesMessageFacts.
Import JS GcnSelectionForm Samples.

(** X24: on its own, [GcnEventSourcesPage] shows "No sources within
    localization." for an absent store and for an empty list of sources,
    and a table in every other case; placed in the sources pane it is only
    reached with a non-empty list, so the pane never shows that message. *)
Theorem no_sources_message (gcnEventSources : nullable Sources.t) (s : state) :
  shows_text "No sources within localization." (GcnEventSourcesPage gcnEventSources)
  = (negb (present gcnEventSources)
     || match opt_chain gcnEventSources Sources.sources with
        | Def [] => true
        | _ => false
        end)
  /\ shows_table (GcnEventSourcesPage gcnEventSources)
     = negb (shows_text "No sources within localization."
               (GcnEventSourcesPage gcnEventSources))
  /\ shows_text "No sources within localization." (sources_pane gcnEventSources s)
     = false.
Proof.
  destruct gcnEventSources as [| |[[| |[|r rows]] page total per]];
    repeat split; try reflexivity.
  unfold sources_pane. simpl.
  destruct (str_truthy (selectedLocalizationName s)); reflexivity.
Qed.

End SourcesMessageFacts.

(** ** What validation can change *)

Section ValidationMore.
Import JS GcnSelectionForm Samples.

Variable StringToNumber : string -> number.
Variable ArrayToString : list prim -> string.

Lemma addError_other (errors errors' : gmap string (list string))
    (field message k : string) :
  addError errors field message = Normal errors' ->
  (k <> field -> errors' !! k = errors !! k)
  /\ (is_Some (errors' !! k) <-> is_Some (errors !! k)).
Proof.
  unfold addError. destruct (errors !! field) as [messages|] eqn:E; [|discriminate].
  intros [= <-]. split.
  - intros Hk. now apply lookup_insert_ne.
  - destruct (decide (field = k)) as [<-|Hne].
    + rewrite lookup_insert_eq, E. split; eauto.
    + now rewrite lookup_insert_ne.
Qed.

(** X25: whatever the form data, when [validate] returns it has changed the
    error object at most under the keys [start_date] and [cumulative]: the
    messages of every other handler are as before, and no handler is added
    or removed. *)
Theorem validate_frame (formData : gmap string value)
    (errors errors' : gmap string (list string)) :
  validate StringToNumber ArrayToString formData errors = Normal errors' ->
  (forall k, k <> "start_date" -> k <> "cumulative" -> errors' !! k = errors !! k)
  /\ (forall k, is_Some (errors' !! k) <-> is_Some (errors !! k)).
Proof.
  unfold validate. intros H.
  destruct (gt _ _ (get formData "start_date") _).
  - destruct (addError errors "start_date" _) as [e1|] eqn:E1; [|discriminate].
    simpl in H. destruct (_ || _).
    + destruct (addError e1 "cumulative" _) as [e2|] eqn:E2; [|discriminate].
      simpl in H. injection H as <-. split; intros k.
      * intros H1 H2.
        rewrite (proj1 (addError_other _ _ _ _ k E2) H2).
        apply (proj1 (addError_other _ _ _ _ k E1) H1).
      * rewrite (proj2 (addError_other _ _ _ _ k E2)).
        apply (proj2 (addError_other _ _ _ _ k E1)).
    + simpl in H. injection H as <-. split; intros k.
      * intros H1 _. apply (proj1 (addError_other _ _ _ _ k E1) H1).
      * apply (proj2 (addError_other _ _ _ _ k E1)).
  - simpl in H. destruct (_ || _).
    + destruct (addError errors "cumulative" _) as [e2|] eqn:E2; [|discriminate].
      simpl in H. injection H as <-. split; intros k.
      * intros _ H2. apply (proj1 (addError_other _ _ _ _ k E2) H2).
      * apply (proj2 (addError_other _ _ _ _ k E2)).
    + simpl in H. injection H as <-. split; intros k; [reflexivity|tauto].
Qed.

End ValidationMore.

Section ValidationMoreWitness.
Import JS GcnSelectionForm Samples.

Lemma validate_frame_witness :
  <["cumulative" := ["Value of cumulative should be between 0 and 1"]]>
    (<["cumulative" := []]> (createErrorHandler cumprob_two_form))
    !! "localizationCumprob"
  = <["cumulative" := []]> (createErrorHandler cumprob_two_form)
      !! "localizationCumprob".
Proof.
  refine (proj1 (validate_frame (fun _ => NaN) (fun _ => "") cumprob_two_form
                   (<["cumulative" := []]> (createErrorHandler cumprob_two_form))
                   _ _) "localizationCumprob" _ _);
    [vm_compute; reflexivity|discriminate|discriminate].
Defined.

End ValidationMoreWitness.

(** ** Runs of the trigger selector *)

Section TriggerRunFacts.
Import JS JSString SkymapTriggerAPIDisplay TriggerSelectorView Samples Samples2.



End TriggerRunFacts.
